(** * VicinaeFFmpeg: the recording supervisor and its environment probe

    A shallow embedding of the two commands of the extension
    (the status view with [checkIsRecording], [stopRecording],
    [detectResolution], [startRecording], [readLogTail], and the one-shot
    toggle command of [toggle-recording.ts]) together with the part of
    Node's [fs], [path], [child_process] and [Date] that they call. *)

From Stdlib Require Import ZArith Ascii String List Bool Lia.
From stdpp Require Import base gmap strings list.

Open Scope string_scope.
Open Scope list_scope.
Open Scope Z_scope.

(** ** JavaScript strings

    Strings are sequences of code units below 256.  [is_ws] is the white
    space that [String.prototype.trim] strips in that range: TAB, LF, VT,
    FF, CR, SP and NBSP. *)

Module Js.

Definition is_ws (c : ascii) : bool :=
  let n := nat_of_ascii c in
  ((9 <=? n) && (n <=? 13) || (n =? 32) || (n =? 160))%nat.

Fixpoint trimStart (s : string) : string :=
  match s with
  | String c r => if is_ws c then trimStart r else s
  | EmptyString => EmptyString
  end.

Fixpoint trimEnd (s : string) : string :=
  match s with
  | String c r =>
      match trimEnd r with
      | EmptyString => if is_ws c then EmptyString else String c EmptyString
      | r' => String c r'
      end
  | EmptyString => EmptyString
  end.

(** [s.trim()] *)
Definition trim (s : string) : string := trimEnd (trimStart s).

(** [s.split(sep)] for a separator of one character: never empty. *)
Fixpoint split (sep : ascii) (s : string) : list string :=
  match s with
  | EmptyString => [EmptyString]
  | String c r =>
      if Ascii.eqb c sep then EmptyString :: split sep r
      else match split sep r with
           | h :: t => String c h :: t
           | [] => [String c EmptyString]
           end
  end.

(** [l.join(sep)] *)
Fixpoint join (sep : string) (l : list string) : string :=
  match l with
  | [] => EmptyString
  | [x] => x
  | x :: r => x +:+ sep +:+ join sep r
  end.

(** [l.slice(-n)]: the last [n] elements, all of them when there are fewer. *)
Definition sliceLast {A} (n : nat) (l : list A) : list A :=
  drop (length l - n)%nat l.

(** [s.slice(0, n)] *)
Definition slicePrefix (n : nat) (s : string) : string := substring 0 n s.

Fixpoint mapChars (f : ascii -> ascii) (s : string) : string :=
  match s with
  | EmptyString => EmptyString
  | String c r => String (f c) (mapChars f r)
  end.

(** [s.replace(/[:.]/g, "-")] *)
Definition replaceColonDot (s : string) : string :=
  mapChars (fun c => if Ascii.eqb c ":" || Ascii.eqb c "." then "-"%char else c) s.

(** [a || b] on strings that may be undefined: the empty string is falsy. *)
Definition orElse (a : option string) (b : string) : string :=
  match a with
  | Some (String c r) => String c r
  | _ => b
  end.

(** The character of a decimal digit. *)
Definition digitChar (d : Z) : ascii := ascii_of_N (48 + Z.to_N d).

Fixpoint decimalGo (fuel : nat) (n : Z) (acc : string) : string :=
  match fuel with
  | O => acc
  | S fuel' =>
      let acc' := String (digitChar (n mod 10)) acc in
      if n / 10 =? 0 then acc' else decimalGo fuel' (n / 10) acc'
  end.

(** [String(n)] for a non-negative integer. *)
Definition decimal (n : N) : string :=
  decimalGo (S (N.to_nat (N.log2 n))) (Z.of_N n) EmptyString.

(** [String(z)] for an integer. *)
Definition stringOfInt (z : Z) : string :=
  if z <? 0 then "-" +:+ decimal (Z.to_N (- z)) else decimal (Z.to_N z).

Fixpoint repeatChar (n : nat) (c : ascii) : string :=
  match n with
  | O => EmptyString
  | S n' => String c (repeatChar n' c)
  end.

(** [s.padStart(width, c)] for a fill of one character. *)
Definition padStart (width : nat) (c : ascii) (s : string) : string :=
  repeatChar (width - String.length s) c +:+ s.

(** [String(child.pid)], where the pid of a child that did not start is
    [undefined]. *)
Definition stringOfPid (p : option N) : string :=
  match p with
  | Some n => decimal n
  | None => "undefined"
  end.

End Js.

(** ** Node's POSIX [path] *)

Module Path.

Definition sep : ascii := "/"%char.

(** One step of [normalizeString]: [stack] holds the segments kept so far,
    the last one first; [above] is [allowAboveRoot]. *)
Definition step (above : bool) (stack : list string) (seg : string) : list string :=
  if decide (seg = "" ∨ seg = ".") then stack
  else if decide (seg = "..") then
    match stack with
    | [] => if above then [".."] else []
    | top :: rest =>
        if above && bool_decide (top = "..") then ".." :: stack else rest
    end
  else seg :: stack.

Definition normalizeString (above : bool) (p : string) : list string :=
  rev (fold_left (step above) (Js.split sep p) []).

Definition isAbsolute (p : string) : bool :=
  match p with
  | String c _ => Ascii.eqb c sep
  | EmptyString => false
  end.

Fixpoint endsWithSep (p : string) : bool :=
  match p with
  | EmptyString => false
  | String c EmptyString => Ascii.eqb c sep
  | String _ r => endsWithSep r
  end.

(** [path.normalize(p)] *)
Definition normalize (p : string) : string :=
  match p with
  | EmptyString => "."
  | _ =>
      let abs := isAbsolute p in
      match Js.join "/" (normalizeString (negb abs) p) with
      | EmptyString => if abs then "/" else if endsWithSep p then "./" else "."
      | body =>
          (if abs then "/" else "") +:+ body +:+ (if endsWithSep p then "/" else "")
      end
  end.

(** [path.join(...parts)]: the non-empty parts, joined by the separator
    and normalized. *)
Definition joinAll (parts : list string) : string :=
  match filter (fun s => s ≠ "") parts with
  | [] => "."
  | ps => normalize (Js.join "/" ps)
  end.

Definition join (a b : string) : string := joinAll [a; b].

(** The file a path names for a process whose working directory is [cwd]:
    the list of its segments below the root, as [path.resolve] finds it. *)
Definition resolve (cwd : list string) (p : string) : list string :=
  rev (fold_left (step false) (Js.split sep p)
         (if isAbsolute p then [] else rev cwd)).

End Path.

(** ** The machine: files, processes, clock

    A file system is a finite map from resolved paths to entries; the root
    is a directory that is always there.  A file carries its text and
    whether the process may open it.  An operation looks at the entry of
    its path only; [mkdirSync] with [recursive] is the one that walks the
    ancestors. *)

Inductive node : Type :=
  | File (access : bool) (content : string)
  | Dir.

(** What the next launch of the recorder does. *)
Inductive launch : Type :=
  | Launches (pid : N)
  | Fails (err : string).

(** A queued ['error'] event of a child process: the child, the error,
    and whether a listener was attached to the child. *)
Record event : Type := ChildError {
  owner : nat;
  errText : string;
  listened : bool
}.

Record World : Type := mkWorld {
  fs : gmap (list string) node;
  cwd : list string;
  clock : Z;                      (* milliseconds since the epoch *)
  procs : gset N;                 (* the processes [kill] reaches *)
  deaf : gset N;                  (* those that do not exit on SIGINT *)
  launches : list launch;         (* outcomes of the coming [spawn] calls *)
  spawned : list (string * list string);  (* commands started, latest first *)
  pending : list event;           (* events the loop has not delivered yet *)
  xdpyinfo : gmap string string;  (* display |-> what xdpyinfo prints for it *)
  awkStatus : Z                   (* exit status of the last pipeline stage *)
}.

(** The constants of the process: [os.tmpdir()], [os.homedir()] and
    [process.env.DISPLAY]. *)
Record Host : Type := mkHost {
  tmpdir : string;
  homedir : string;
  envDISPLAY : option string
}.

Definition setFs (f : gmap (list string) node) (w : World) : World :=
  mkWorld f (cwd w) (clock w) (procs w) (deaf w) (launches w) (spawned w)
          (pending w) (xdpyinfo w) (awkStatus w).

Definition setClock (t : Z) (w : World) : World :=
  mkWorld (fs w) (cwd w) t (procs w) (deaf w) (launches w) (spawned w)
          (pending w) (xdpyinfo w) (awkStatus w).

Definition setProcs (p : gset N) (w : World) : World :=
  mkWorld (fs w) (cwd w) (clock w) p (deaf w) (launches w) (spawned w)
          (pending w) (xdpyinfo w) (awkStatus w).

Definition setPending (q : list event) (w : World) : World :=
  mkWorld (fs w) (cwd w) (clock w) (procs w) (deaf w) (launches w) (spawned w)
          q (xdpyinfo w) (awkStatus w).

(** ** Computations that may throw *)

Inductive errno : Type := ENOENT | EISDIR | EACCES | ENOTDIR.

Inductive exn : Type :=
  | FsError (code : errno) (path : string)
  | ExecError (commandLine : string)
  | Uncaught (msg : string).

Inductive Res (A : Type) : Type :=
  | Ok (a : A) (w : World)
  | Throw (e : exn) (w : World).
Arguments Ok {A} a w.
Arguments Throw {A} e w.

Definition M (A : Type) : Type := World -> Res A.

Definition ret {A} (a : A) : M A := fun w => Ok a w.

Definition bind {A B} (m : M A) (k : A -> M B) : M B :=
  fun w => match m w with
           | Ok a w' => k a w'
           | Throw e w' => Throw e w'
           end.

Definition throw {A} (e : exn) : M A := fun w => Throw e w.

(** [try { m } catch { h }] *)
Definition tryCatch {A} (m : M A) (h : exn -> M A) : M A :=
  fun w => match m w with
           | Ok a w' => Ok a w'
           | Throw e w' => h e w'
           end.

Definition gets {A} (f : World -> A) : M A := fun w => Ok (f w) w.
Definition modify (f : World -> World) : M unit := fun w => Ok tt (f w).

Notation "'let*' x ':=' m 'in' k" := (bind m (fun x => k))
  (at level 10, x name, m at level 100, k at level 200).
Notation "m ;; k" := (bind m (fun _ => k))
  (at level 100, k at level 200, right associativity).

(** ** [fs] *)

Definition stat (w : World) (p : string) : option node :=
  match p with
  | EmptyString => None
  | _ => match Path.resolve (cwd w) p with
         | [] => Some Dir
         | k => fs w !! k
         end
  end.

Definition existsSync (p : string) : M bool :=
  gets (fun w => bool_decide (is_Some (stat w p))).

Definition readFileSync (p : string) : M string :=
  fun w => match stat w p with
           | None => Throw (FsError ENOENT p) w
           | Some Dir => Throw (FsError EISDIR p) w
           | Some (File false _) => Throw (FsError EACCES p) w
           | Some (File true c) => Ok c w
           end.

Definition putFile (p : string) (f : node) (w : World) : World :=
  setFs (<[Path.resolve (cwd w) p := f]> (fs w)) w.

Definition writeFileSync (p data : string) : M unit :=
  fun w => match p, stat w p with
           | EmptyString, _ => Throw (FsError ENOENT p) w
           | _, None | _, Some (File true _) => Ok tt (putFile p (File true data) w)
           | _, Some (File false _) => Throw (FsError EACCES p) w
           | _, Some Dir => Throw (FsError EISDIR p) w
           end.

Definition appendFileSync (p data : string) : M unit :=
  fun w => match p, stat w p with
           | EmptyString, _ => Throw (FsError ENOENT p) w
           | _, None => Ok tt (putFile p (File true data) w)
           | _, Some (File true c) => Ok tt (putFile p (File true (c +:+ data)) w)
           | _, Some (File false _) => Throw (FsError EACCES p) w
           | _, Some Dir => Throw (FsError EISDIR p) w
           end.

Definition unlinkSync (p : string) : M unit :=
  fun w => match stat w p with
           | None => Throw (FsError ENOENT p) w
           | Some Dir => Throw (FsError EISDIR p) w
           | Some (File _ _) =>
               Ok tt (setFs (delete (Path.resolve (cwd w) p) (fs w)) w)
           end.

(** A file descriptor is known by the path it was opened on. *)
Inductive fd : Type := Fd (p : string).

Inductive openFlag : Type := OpenW | OpenA.

(** [fs.openSync(p, "w")] creates or truncates, [fs.openSync(p, "a")]
    creates and keeps the content. *)
Definition openSync (p : string) (flag : openFlag) : M fd :=
  fun w => match p, stat w p with
           | EmptyString, _ => Throw (FsError ENOENT p) w
           | _, None => Ok (Fd p) (putFile p (File true "") w)
           | _, Some (File true c) =>
               Ok (Fd p) (match flag with
                          | OpenW => putFile p (File true "") w
                          | OpenA => w
                          end)
           | _, Some (File false _) => Throw (FsError EACCES p) w
           | _, Some Dir => Throw (FsError EISDIR p) w
           end.

(** The ancestors of a resolved path and the path itself, shortest first. *)
Definition prefixes (k : list string) : list (list string) :=
  map (fun n => take n k) (seq 1 (length k)).

Fixpoint mkdirs (ks : list (list string)) (f : gmap (list string) node) :
    option (gmap (list string) node) :=
  match ks with
  | [] => Some f
  | k :: r =>
      match f !! k with
      | None => mkdirs r (<[k := Dir]> f)
      | Some Dir => mkdirs r f
      | Some (File _ _) => None
      end
  end.

(** [fs.mkdirSync(p, { recursive: true })] *)
Definition mkdirSyncRecursive (p : string) : M unit :=
  fun w => match p with
           | EmptyString => Throw (FsError ENOENT p) w
           | _ => match mkdirs (prefixes (Path.resolve (cwd w) p)) (fs w) with
                  | Some f => Ok tt (setFs f w)
                  | None => Throw (FsError ENOTDIR p) w
                  end
           end.

(** ** The shell commands of [execSync]

    The program runs four command lines.  Each is kept with the text the
    source builds, and run by what the utilities do: [kill] reaches the
    processes of [procs] by their decimal id; a process that is not [deaf]
    exits on SIGINT; [sleep 1] lets a second pass; the display pipeline
    keeps the second field of the lines of [xdpyinfo] that hold the word
    dimensions.  A command that exits with a status other than zero makes
    [execSync] throw. *)

Inductive command : Type :=
  | Kill0 (pid : string)
  | KillInt (pid : string)
  | Sleep1
  | XdpyinfoDims (display : string).

Module Shell.

Definition nl : ascii := "010"%char.

Definition commandLine (c : command) : string :=
  match c with
  | Kill0 pid => "kill -0 " +:+ pid
  | KillInt pid => "kill -INT " +:+ pid
  | Sleep1 => "sleep 1"
  | XdpyinfoDims display =>
      "DISPLAY=" +:+ display
        +:+ " xdpyinfo 2>/dev/null | grep dimensions | awk '{print $2}'"
  end.

Definition isDigit (c : ascii) : bool :=
  let n := nat_of_ascii c in ((48 <=? n) && (n <=? 57))%nat.

Fixpoint digitsValue (s : string) (acc : N) : option N :=
  match s with
  | EmptyString => Some acc
  | String c r =>
      if isDigit c then digitsValue r (10 * acc + (N_of_ascii c - 48))%N
      else None
  end.

(** The process a pid argument names: a non-empty run of decimal digits. *)
Definition pidOfText (s : string) : option N :=
  match s with
  | EmptyString => None
  | _ => digitsValue s 0%N
  end.

(** The lines of a text: the pieces between newlines, without the empty
    piece after a final newline. *)
Definition textLines (s : string) : list string :=
  match rev (Js.split nl s) with
  | EmptyString :: r => rev r
  | _ => Js.split nl s
  end.

Fixpoint contains (pat s : string) : bool :=
  String.prefix pat s ||
  match s with
  | String _ r => contains pat r
  | EmptyString => false
  end.

(** [grep pat] *)
Definition grep (pat : string) (ls : list string) : list string :=
  filter (fun l => Is_true (contains pat l)) ls.

Definition isBlank (c : ascii) : bool :=
  Ascii.eqb c " " || Ascii.eqb c "009".

(** The fields of a record of awk, split at runs of blanks; [cur] is the
    field being read, its characters last first. *)
Fixpoint fieldsGo (cur : option string) (s : string) : list string :=
  match s with
  | EmptyString => option_list (String.rev <$> cur)
  | String c r =>
      if isBlank c then option_list (String.rev <$> cur) ++ fieldsGo None r
      else fieldsGo (Some (String c (default EmptyString cur))) r
  end.

(** [awk '{print $2}'] *)
Definition awkPrint2 (ls : list string) : string :=
  String.concat ""
    (map (fun l => nth 1 (fieldsGo None l) EmptyString +:+ String nl "") ls).

Definition signal (w : World) (pid : string) : option N :=
  match pidOfText pid with
  | Some n => if decide (n ∈ procs w) then Some n else None
  | None => None
  end.

End Shell.

(** [execSync(commandLine c)]: the standard output of the command. *)
Definition execSync (c : command) : M string :=
  fun w =>
    match c with
    | Kill0 pid =>
        match Shell.signal w pid with
        | Some _ => Ok "" w
        | None => Throw (ExecError (Shell.commandLine c)) w
        end
    | KillInt pid =>
        match Shell.signal w pid with
        | Some n =>
            Ok "" (if decide (n ∈ deaf w) then w
                   else setProcs (procs w ∖ {[n]}) w)
        | None => Throw (ExecError (Shell.commandLine c)) w
        end
    | Sleep1 => Ok "" (setClock (clock w + 1000) w)
    | XdpyinfoDims display =>
        if awkStatus w =? 0 then
          Ok (Shell.awkPrint2
                (Shell.grep "dimensions"
                   (Shell.textLines (default "" (xdpyinfo w !! display))))) w
        else Throw (ExecError (Shell.commandLine c)) w
    end.

(** ** [spawn] and the event loop

    [spawn] itself does not throw when the executable cannot be started:
    the child it returns has no pid, and an ['error'] event is queued for
    it.  The options of the call (detached, the descriptors of the log,
    the environment) say where the child writes; what the child writes is
    not part of the model. *)

Record child : Type := Child { childId : nat; childPid : option N }.

Definition spawn (cmd : string) (args : list string) : M child :=
  fun w =>
    let id := length (spawned w) in
    let sp := (cmd, args) :: spawned w in
    match launches w with
    | Launches n :: r =>
        Ok (Child id (Some n))
           (mkWorld (fs w) (cwd w) (clock w) ({[n]} ∪ procs w) (deaf w) r sp
                    (pending w) (xdpyinfo w) (awkStatus w))
    | Fails err :: r =>
        Ok (Child id None)
           (mkWorld (fs w) (cwd w) (clock w) (procs w) (deaf w) r sp
                    (pending w ++ [ChildError id err false])
                    (xdpyinfo w) (awkStatus w))
    | [] =>
        Ok (Child id None)
           (mkWorld (fs w) (cwd w) (clock w) (procs w) (deaf w) [] sp
                    (pending w
                       ++ [ChildError id ("Error: spawn " +:+ cmd +:+ " ENOENT") false])
                    (xdpyinfo w) (awkStatus w))
    end.

(** [child.on("error", listener)]: the queued events of the child now
    have a listener. *)
Definition onError (c : child) : M unit :=
  modify (fun w =>
    setPending
      (map (fun e =>
              if Nat.eqb (owner e) (childId c)
              then ChildError (owner e) (errText e) true else e)
         (pending w)) w).

(** [child.unref()] *)
Definition unref (c : child) : M unit := ret tt.

(** One turn of the event loop, which lasts [ms] milliseconds: the queued
    events are delivered, to [listener] when one was attached; an ['error']
    event without a listener is thrown. *)
Fixpoint deliver (listener : string -> M unit) (q : list event) : M unit :=
  match q with
  | [] => ret tt
  | e :: r =>
      (if listened e then listener (errText e) else throw (Uncaught (errText e))) ;;
      deliver listener r
  end.

Definition eventLoopTurn (ms : Z) (listener : string -> M unit) : M unit :=
  let* q := gets pending in
  modify (fun w => setClock (clock w + ms) (setPending [] w)) ;;
  deliver listener q.

(** [String(e)] of a caught exception. *)
Definition exnText (e : exn) : string :=
  match e with
  | FsError ENOENT p => "Error: ENOENT: no such file or directory, " +:+ p
  | FsError EISDIR p => "Error: EISDIR: illegal operation on a directory, " +:+ p
  | FsError EACCES p => "Error: EACCES: permission denied, " +:+ p
  | FsError ENOTDIR p => "Error: ENOTDIR: not a directory, " +:+ p
  | ExecError c => "Error: Command failed: " +:+ c
  | Uncaught m => m
  end.

(** ** [Date]

    A date is its time value, the milliseconds since the epoch; the fields
    of [toISOString] are those of the proleptic Gregorian calendar in UTC. *)

Module Date.

Definition msPerDay : Z := 86400000.

(** Year of the era, month and day of a day of a 400-year era that starts
    on the first of March. *)
Definition civilOfDoe (doe : Z) : Z * Z * Z :=
  let yoe := (doe - doe / 1460 + doe / 36524 - doe / 146096) / 365 in
  let doy := doe - (365 * yoe + yoe / 4 - yoe / 100) in
  let mp := (5 * doy + 2) / 153 in
  let d := doy - (153 * mp + 2) / 5 + 1 in
  let m := if mp <? 10 then mp + 3 else mp - 9 in
  (yoe, m, d).

(** Year, month and day of a day counted from the epoch. *)
Definition civil (days : Z) : Z * Z * Z :=
  let z := days + 719468 in
  let era := z / 146097 in
  let '(yoe, m, d) := civilOfDoe (z mod 146097) in
  (yoe + era * 400 + (if m <=? 2 then 1 else 0), m, d).

Record fields : Type := Fields {
  year : Z; month : Z; day : Z;
  hours : Z; minutes : Z; seconds : Z; millis : Z
}.

Definition utc (t : Z) : fields :=
  let '(y, m, d) := civil (t / msPerDay) in
  let tod := t mod msPerDay in
  Fields y m d (tod / 3600000) (tod / 60000 mod 60) (tod / 1000 mod 60)
         (tod mod 1000).

(** [String(n).padStart(width, "0")] for [0 <= n < 10 ^ width] *)
Fixpoint pad (width : nat) (n : Z) (acc : string) : string :=
  match width with
  | O => acc
  | S width' => pad width' (n / 10) (String (Js.digitChar (n mod 10)) acc)
  end.

Definition yearText (y : Z) : string :=
  if (0 <=? y) && (y <=? 9999) then pad 4 y ""
  else (if y <? 0 then "-" else "+") +:+ pad 6 (Z.abs y) "".

(** [new Date(t).toISOString()] *)
Definition toISOString (t : Z) : string :=
  let f := utc t in
  yearText (year f) +:+ "-" +:+ pad 2 (month f) "" +:+ "-" +:+ pad 2 (day f) ""
    +:+ "T" +:+ pad 2 (hours f) "" +:+ ":" +:+ pad 2 (minutes f) ""
    +:+ ":" +:+ pad 2 (seconds f) "" +:+ "." +:+ pad 3 (millis f) "" +:+ "Z".

(** [new Date()] *)
Definition now : M Z := gets clock.

End Date.

(** ** The status view (the command with [checkIsRecording]) *)

Module Recorder.

Record Preferences : Type := {
  outputDir : option string;
  audioDevice : option string;
  fps : option string
}.

Record status : Type := Status { active : bool; pid : option string }.

Inductive toastStyle : Type := Animated | Success | Failure.

Record toast : Type := Toast {
  style : toastStyle;
  title : string;
  message : option string
}.

(** The text the timer of the view sets every second while a recording
    started at [startedAt] is active: minutes and seconds since then. *)
Definition timerTick (startedAt now : Z) : string :=
  let secs := (now - startedAt) / 1000 in
  let m := Js.padStart 2 "0" (Js.stringOfInt (secs / 60)) in
  let s := Js.padStart 2 "0" (Js.stringOfInt (Z.rem secs 60)) in
  m +:+ ":" +:+ s.

Section Program.

Variable host : Host.

Definition PID_FILE : string := Path.join (tmpdir host) "raycast-ffmpeg.pid".
Definition LOG_FILE : string := Path.join (tmpdir host) "ffmpeg-recording.log".

Definition getOutputDir (prefs : Preferences) : M string :=
  let dir := Js.orElse (Js.trim <$> outputDir prefs)
                       (Path.join (homedir host) "Videos") in
  let* found := existsSync dir in
  (if negb found then mkdirSyncRecursive dir else ret tt) ;;
  ret dir.

Definition checkIsRecording : M status :=
  let* found := existsSync PID_FILE in
  if negb found then ret (Status false None) else
  let* text := readFileSync PID_FILE in
  let pid := Js.trim text in
  tryCatch
    (execSync (Kill0 pid) ;;
     ret (Status true (Some pid)))
    (fun _ =>
     unlinkSync PID_FILE ;;
     ret (Status false None)).

Definition stopRecording : M unit :=
  let* found := existsSync PID_FILE in
  if negb found then ret tt else
  let* text := readFileSync PID_FILE in
  let pid := Js.trim text in
  tryCatch
    (execSync (KillInt pid) ;;
     execSync Sleep1 ;;
     ret tt)
    (fun _ => ret tt (* already dead *)) ;;
  let* still := existsSync PID_FILE in
  if still then unlinkSync PID_FILE else ret tt.

Definition detectDisplay : string := Js.orElse (envDISPLAY host) ":0".

Definition detectResolution (display : string) : M string :=
  tryCatch
    (let* out := execSync (XdpyinfoDims display) in
     ret (Js.orElse (Some (Js.trim out)) "1920x1080"))
    (fun _ => ret "1920x1080").

(** The timestamp of an output file. *)
Definition timestamp (t : Z) : string :=
  Js.slicePrefix 19 (Js.replaceColonDot (Date.toISOString t)).

(** The listener of the child's ['error'] event. *)
Definition onSpawnError (err : string) : M unit :=
  appendFileSync LOG_FILE
    (String Shell.nl "SPAWN ERROR: " +:+ err +:+ String Shell.nl "").

Definition startRecording (prefs : Preferences) : M unit :=
  let* outputDir := getOutputDir prefs in
  let* t := Date.now in
  let outputFile := Path.join outputDir ("recording-" +:+ timestamp t +:+ ".mp4") in
  let display := detectDisplay in
  let* resolution := detectResolution display in
  let audioDevice := Js.orElse (Js.trim <$> audioDevice prefs) "default" in
  let fps := Js.orElse (Js.trim <$> fps prefs) "60" in
  let args := [
    "-y";
    "-f"; "x11grab";
    "-framerate"; fps;
    "-s"; resolution;
    "-i"; display +:+ ".0+0,0";
    "-f"; "pulse";
    "-i"; audioDevice;
    "-vcodec"; "libx264";
    "-preset"; "ultrafast";
    "-pix_fmt"; "yuv420p";
    "-acodec"; "aac";
    "-b:a"; "128k";
    outputFile
  ] in
  writeFileSync LOG_FILE
    ("CMD: ffmpeg " +:+ Js.join " " args +:+ String Shell.nl "DISPLAY: "
       +:+ display +:+ String Shell.nl "OUTPUT: " +:+ outputFile
       +:+ String Shell.nl (String Shell.nl "--- FFMPEG OUTPUT ---")
       +:+ String Shell.nl "") ;;
  let* logFd := openSync LOG_FILE OpenA in
  let* child := spawn "ffmpeg" args in
  onError child ;;
  unref child ;;
  writeFileSync PID_FILE (Js.stringOfPid (childPid child)).

Definition readLogTail : M string :=
  tryCatch
    (let* found := existsSync LOG_FILE in
     if negb found
     then ret "_No log yet. Start a recording to see ffmpeg output here._" else
     let* text := readFileSync LOG_FILE in
     let content := Js.trim text in
     match content with
     | EmptyString => ret "_Log is empty_"
     | _ =>
         let lines := Js.split Shell.nl content in
         ret (Js.join (String Shell.nl "") (Js.sliceLast 25 lines))
     end)
    (fun _ => ret "_Could not read log_").

(** What a handler of the view sets: the status, the log text and the
    start time when it sets them, and the toast it leaves. *)
Record update : Type := Update {
  newStatus : option status;
  newLog : option string;
  newStartedAt : option (option Z);
  shown : toast
}.

(** [handleStart].  The wait of 800 ms is a turn of the event loop; an
    exception thrown by a listener in that turn is not thrown into the
    waiting function. *)
Definition handleStart (prefs : Preferences) : M update :=
  let* started :=
    tryCatch (startRecording prefs ;; ret None) (fun e => ret (Some e)) in
  match started with
  | Some e =>
      ret (Update None None None (Toast Failure "Error" (Some (exnText e))))
  | None =>
      eventLoopTurn 800 onSpawnError ;;
      tryCatch
        (let* s := checkIsRecording in
         let* log := readLogTail in
         if active s then
           let* t := Date.now in
           ret (Update (Some s) (Some log) (Some (Some t))
                  (Toast Success "🔴 Recording started" None))
         else
           ret (Update (Some s) (Some log) None
                  (Toast Failure "Failed to start" (Some "See log below"))))
        (fun e =>
         ret (Update None None None (Toast Failure "Error" (Some (exnText e)))))
  end.

(** [handleStop] *)
Definition handleStop (prefs : Preferences) : M update :=
  stopRecording ;;
  let* log := readLogTail in
  let* dir := getOutputDir prefs in
  ret (Update (Some (Status false None)) (Some log) (Some None)
         (Toast Success "⏹ Recording stopped" (Some ("Saved to " +:+ dir)))).

End Program.

End Recorder.

(** ** The one-shot command of [toggle-recording.ts] *)

Module Toggle.

Record Preferences : Type := {
  outputDir : option string;
  inputDevice : option string;
  audioDevice : option string;
  fps : option string;
  resolution : option string
}.

Section Program.

Variable host : Host.

Definition PID_FILE : string := Path.join (tmpdir host) "raycast-ffmpeg.pid".
Definition LOG_FILE : string :=
  Path.joinAll [homedir host; "Desktop"; "ffmpeg-recording.log"].

Definition isRecording : M bool :=
  let* found := existsSync PID_FILE in
  if negb found then ret false else
  let* text := readFileSync PID_FILE in
  let pid := Js.trim text in
  tryCatch
    (execSync (Kill0 pid) ;;
     ret true)
    (fun _ =>
     unlinkSync PID_FILE ;;
     ret false).

Definition stopRecording : M unit :=
  let* text := readFileSync PID_FILE in
  let pid := Js.trim text in
  tryCatch
    (execSync (KillInt pid) ;;
     ret tt)
    (fun _ => ret tt (* Process already dead *)) ;;
  let* still := existsSync PID_FILE in
  if still then unlinkSync PID_FILE else ret tt.

Definition timestamp (t : Z) : string :=
  Js.slicePrefix 19 (Js.replaceColonDot (Date.toISOString t)).

Definition startRecording (prefs : Preferences) : M unit :=
  let* t := Date.now in
  let outputDir := Js.orElse (outputDir prefs) (Path.join (homedir host) "Desktop") in
  let outputFile := Path.join outputDir ("recording-" +:+ timestamp t +:+ ".mp4") in
  let args := [
    "-f"; "avfoundation";
    "-framerate"; Js.orElse (fps prefs) "30";
    "-capture_cursor"; "1";
    "-i"; Js.orElse (inputDevice prefs) "1" +:+ ":" +:+ Js.orElse (audioDevice prefs) "0";
    "-vcodec"; "libx264";
    "-preset"; "ultrafast";
    "-pix_fmt"; "yuv420p";
    "-acodec"; "aac";
    outputFile
  ] in
  let* out := openSync LOG_FILE OpenW in
  let* err := openSync LOG_FILE OpenA in
  let* child := spawn "ffmpeg" args in
  unref child ;;
  writeFileSync PID_FILE (Js.stringOfPid (childPid child)).

(** [main]: the text of the HUD it shows. *)
Definition main (prefs : Preferences) : M string :=
  let* recording := isRecording in
  if recording then
    stopRecording ;;
    ret "⏹ Recording stopped — file saved to Desktop"
  else
    tryCatch
      (startRecording prefs ;;
       ret "🔴 Recording started")
      (fun e => ret ("❌ Failed to start: " +:+ exnText e)).

End Program.

End Toggle.

(** ** Machines to run the programs on *)

Module Example.

Definition host : Host := mkHost "/tmp" "/home/u" (Some ":1").

Definition machine (files : gmap (list string) node) (ps : gset N)
    (ls : list launch) : World :=
  mkWorld files ["home"; "u"] 1793575800123 ps ∅ ls [] [] ∅ 0.

Definition dirs : gmap (list string) node :=
  {[ ["tmp"] := Dir; ["home"] := Dir; ["home"; "u"] := Dir ]}.

Definition withMarker (text : string) : gmap (list string) node :=
  <[ ["tmp"; "raycast-ffmpeg.pid"] := File true text ]> dirs.

(** Nothing is recorded, and the recorder can be started. *)
Definition idle : World := machine dirs ∅ [Launches 4242].

(** A recorder runs as process 4242. *)
Definition recording : World := machine (withMarker "4242") {[ 4242%N ]} [].

(** The marker names process 4242, which is gone. *)
Definition orphaned : World := machine (withMarker "4242") ∅ [].

(** The recorder is not installed. *)
Definition noRecorder : World :=
  machine dirs ∅ [Fails "Error: spawn ffmpeg ENOENT"].

(** Machines whose log entry is [n]. *)
Definition withLog (n : node) : World :=
  machine (<[ ["tmp"; "ffmpeg-recording.log"] := n ]> dirs) ∅ [].

(** A machine on which the display pipeline fails, and machines on which
    xdpyinfo prints [out] for the display [:1]. *)
Definition noAwk : World :=
  mkWorld dirs ["home"; "u"] 1793575800123 ∅ ∅ [] [] [] ∅ 127.

Definition display (out : string) : World :=
  mkWorld dirs ["home"; "u"] 1793575800123 ∅ ∅ [] [] [] {[ ":1" := out ]} 0.

Definition prefs : Recorder.Preferences :=
  {| Recorder.outputDir := Some " /tmp/out ";
     Recorder.audioDevice := None;
     Recorder.fps := Some "30" |}.

Definition togglePrefs : Toggle.Preferences :=
  {| Toggle.outputDir := Some "/tmp/out";
     Toggle.inputDevice := None;
     Toggle.audioDevice := None;
     Toggle.fps := None;
     Toggle.resolution := None |}.

(** The machine a run leaves, whether it returned or threw. *)
Definition after {A} (m : M A) (w : World) : World :=
  match m w with
  | Ok _ w' | Throw _ w' => w'
  end.

(** The machine after a start on [idle], and the same machine when the
    recorder has exited by itself. *)
Definition started : World := after (Recorder.startRecording host prefs) idle.

Definition startedGone : World := setProcs ∅ started.

(** The machine after a start on [idle] one second later. *)
Definition startedLater : World :=
  after (Recorder.startRecording host prefs)
        (setClock (clock idle + 1000) idle).

(** The marker is a file the process may not open, and the recorder
    launches as process 4300. *)
Definition lockedMarker : World :=
  machine (<[ ["tmp"; "raycast-ffmpeg.pid"] := File false "4242" ]> dirs) ∅
          [Launches 4300].

(** The first millisecond of the year 10000. *)
Definition y10k : Z := 253402300800000.

(** A text of [n] lines that all read [l]. *)
Fixpoint lines (n : nat) (l : string) : string :=
  match n with
  | O => ""
  | S n' => l +:+ String Shell.nl (lines n' l)
  end.

End Example.

(** ** Words of the statements *)

(** The process a marker text names is alive: the text is a process id
    and [kill] reaches that process. *)
Definition alive (w : World) (pidText : string) : Prop :=
  ∃ n, Shell.pidOfText pidText = Some n ∧ n ∈ procs w.

(** The world after the entry of [p] is removed. *)
Definition without (p : string) (w : World) : World :=
  setFs (delete (Path.resolve (cwd w) p) (fs w)) w.

(** The last [n] lines of a text file, in the words of the specification:
    the lines are the pieces that the newlines end. *)
Definition lastLines (n : nat) (content : string) : list string :=
  Js.sliceLast n (Shell.textLines content).

(** An output directory that is not set: missing, empty, or white space
    only. *)
Definition unset (dir : option string) : Prop :=
  match dir with
  | None => True
  | Some s => Js.trim s = ""
  end.

(** The output file of the recorder started last: the last argument of
    its command line. *)
Definition lastOutput (w : World) : option string :=
  match spawned w with
  | (_, args) :: _ => last args
  | [] => None
  end.

(** A computation that leaves the files and the working directory alone. *)
Definition quiet {A} (m : M A) : Prop :=
  ∀ w, match m w with
       | Ok _ w' | Throw _ w' => fs w' = fs w ∧ cwd w' = cwd w
       end.

(** ** Words of the proofs *)

(** The character [c] occurs in [s]. *)
Fixpoint hasChar (c : ascii) (s : string) : bool :=
  match s with
  | EmptyString => false
  | String d r => Ascii.eqb d c || hasChar c r
  end.

(** No character of [s] is white space. *)
Fixpoint noSpace (s : string) : bool :=
  match s with
  | EmptyString => true
  | String c r => negb (Js.is_ws c) && noSpace r
  end.

(** A segment that [normalizeString] pushes: neither empty, nor the
    directory itself, nor its parent. *)
Definition normalSeg (s : string) : Prop := s ≠ "" ∧ s ≠ "." ∧ s ≠ "..".

(** A name that can be the last segment of a path. *)
Definition fileName (s : string) : Prop :=
  normalSeg s ∧ hasChar Path.sep s = false.

(** A segment that relative normalization may keep: a normal one, or the
    parent directory at the front. *)
Definition keptSeg (s : string) : Prop := s ≠ "" ∧ s ≠ ".".

(** The day of the era of a year of the era, a month and a day: the
    inverse of [Date.civilOfDoe]. *)
Definition doeOf (yoe m d : Z) : Z :=
  365 * yoe + yoe / 4 - yoe / 100
  + (153 * (if 2 <? m then m - 3 else m + 9) + 2) / 5 + d - 1.

(** The day counted from the epoch of a civil date. *)
Definition daysOf (y m d : Z) : Z :=
  let y' := y - (if m <=? 2 then 1 else 0) in
  (y' / 400) * 146097 + doeOf (y' mod 400) m d - 719468.

(** The seconds since the epoch of the fields of a date. *)
Definition epochSeconds (f : Date.fields) : Z :=
  daysOf (Date.year f) (Date.month f) (Date.day f) * 86400
  + Date.hours f * 3600 + Date.minutes f * 60 + Date.seconds f.

(** [Date.civilOfDoe] yields a date of the calendar, and [doeOf] takes
    it back to the day. *)
Definition doeCheck (doe : Z) : bool :=
  let '(yoe, m, d) := Date.civilOfDoe doe in
  (0 <=? yoe) && (yoe <=? 399) && (1 <=? m) && (m <=? 12)
  && (1 <=? d) && (d <=? 31) && (doeOf yoe m d =? doe).

(** [f] holds of the [n] integers from [z] on. *)
Fixpoint allFrom (f : Z → bool) (n : nat) (z : Z) : bool :=
  match n with
  | O => true
  | S n' => f z && allFrom f n' (z + 1)
  end.

(** The days of the 400 years of an era. *)
Definition daysPerEra : nat := Z.to_nat 146097.

(** The wall clock is in a year that [toISOString] prints with four
    digits. *)
Definition fourDigitYear (t : Z) : Prop :=
  0 ≤ Date.year (Date.utc t) ≤ 9999.

(** The timestamp of the fields of a date with a year of four digits. *)
Definition stamp (f : Date.fields) : string :=
  Date.pad 4 (Date.year f) (String "-"
    (Date.pad 2 (Date.month f) (String "-"
      (Date.pad 2 (Date.day f) (String "T"
        (Date.pad 2 (Date.hours f) (String "-"
          (Date.pad 2 (Date.minutes f) (String "-"
            (Date.pad 2 (Date.seconds f) "")))))))))).

(** The text of [toISOString] for a year of four digits, each field
    written before the rest. *)
Definition isoText (f : Date.fields) (rest : string) : string :=
  Date.pad 4 (Date.year f) (String "-"
    (Date.pad 2 (Date.month f) (String "-"
      (Date.pad 2 (Date.day f) (String "T"
        (Date.pad 2 (Date.hours f) (String ":"
          (Date.pad 2 (Date.minutes f) (String ":"
            (Date.pad 2 (Date.seconds f) rest)))))))))).

(** A text that does not start with white space. *)
Definition headOk (s : string) : Prop :=
  match s with
  | String c _ => Js.is_ws c = false
  | EmptyString => True
  end.

(** A number of two digits at most, padded, has two characters. *)
Definition twoChars (k : nat) : bool :=
  Nat.eqb (String.length (Js.padStart 2 "0" (Js.decimal (N.of_nat k)))) 2.

(** * Facts about the machine *)

Lemma stat_file_entry w p a c :
  stat w p = Some (File a c) →
  p ≠ "" ∧ Path.resolve (cwd w) p ≠ [] ∧
  fs w !! Path.resolve (cwd w) p = Some (File a c).
Proof.
  unfold stat. destruct p as [|ch r]; [discriminate|].
  destruct (Path.resolve (cwd w) (String ch r)) eqn:E; [discriminate|].
  intros H. repeat split; try discriminate. exact H.
Qed.

Lemma stat_without w p a c :
  stat w p = Some (File a c) → stat (without p w) p = None.
Proof.
  intros H. destruct (stat_file_entry _ _ _ _ H) as (Hp & Hk & _).
  unfold stat, without. simpl.
  destruct p; [done|].
  destruct (Path.resolve (cwd w) (String a0 p)) eqn:E; [done|].
  apply lookup_delete_eq.
Qed.

Lemma stat_frame w w' p :
  fs w' = fs w → cwd w' = cwd w → stat w' p = stat w p.
Proof. intros Hf Hc. unfold stat. by rewrite Hf, Hc. Qed.

Lemma stat_putFile w p f :
  p ≠ "" → stat w p ≠ Some Dir → stat (putFile p f w) p = Some f.
Proof.
  intros Hp Hd. unfold stat, putFile in *. simpl.
  destruct p; [done|].
  destruct (Path.resolve (cwd w) (String a p)) eqn:E; [done|].
  apply lookup_insert_eq.
Qed.

Lemma signal_alive w t : is_Some (Shell.signal w t) ↔ alive w t.
Proof.
  unfold Shell.signal, alive. split.
  - intros [n H]. destruct (Shell.pidOfText t) as [m|]; [|done].
    destruct (decide (m ∈ procs w)); [|done]. eauto.
  - intros (n & -> & Hn). rewrite decide_True by done. eauto.
Qed.

Lemma signal_dead w t : ¬ alive w t → Shell.signal w t = None.
Proof.
  intros H. destruct (Shell.signal w t) eqn:E; [|done].
  destruct H. apply signal_alive. eauto.
Qed.

(** No command of the shell touches a file or the working directory. *)
Lemma execSync_frame c w :
  match execSync c w with
  | Ok _ w' | Throw _ w' => fs w' = fs w ∧ cwd w' = cwd w
  end.
Proof.
  destruct c; simpl; repeat case_match; simplify_eq; simpl; auto.
Qed.

Lemma kill0_alive w t : alive w t → execSync (Kill0 t) w = Ok "" w.
Proof.
  intros H. apply signal_alive in H as [n H]. simpl. by rewrite H.
Qed.

Lemma kill0_dead w t :
  ¬ alive w t →
  execSync (Kill0 t) w = Throw (ExecError (Shell.commandLine (Kill0 t))) w.
Proof. intros H. simpl. by rewrite (signal_dead _ _ H). Qed.

Lemma existsSync_found w p n :
  stat w p = Some n → existsSync p w = Ok true w.
Proof.
  intros H. unfold existsSync, gets. by rewrite H, bool_decide_eq_true_2.
Qed.

Lemma existsSync_absent w p :
  stat w p = None → existsSync p w = Ok false w.
Proof.
  intros H. unfold existsSync, gets. rewrite H, bool_decide_eq_false_2; [done|].
  by intros [? ?].
Qed.

(** * The status check *)

Section StatusCheck.

Variable host : Host.

Lemma check_absent w :
  stat w (Recorder.PID_FILE host) = None →
  Recorder.checkIsRecording host w = Ok (Recorder.Status false None) w.
Proof.
  intros H. unfold Recorder.checkIsRecording, bind.
  by rewrite (existsSync_absent _ _ H).
Qed.

Lemma check_alive w text :
  stat w (Recorder.PID_FILE host) = Some (File true text) →
  alive w (Js.trim text) →
  Recorder.checkIsRecording host w
  = Ok (Recorder.Status true (Some (Js.trim text))) w.
Proof.
  intros H Ha. unfold Recorder.checkIsRecording, bind.
  rewrite (existsSync_found _ _ _ H). cbn [negb].
  unfold readFileSync. rewrite H.
  unfold tryCatch. by rewrite (kill0_alive _ _ Ha).
Qed.

Lemma check_dead w text :
  stat w (Recorder.PID_FILE host) = Some (File true text) →
  ¬ alive w (Js.trim text) →
  Recorder.checkIsRecording host w
  = Ok (Recorder.Status false None) (without (Recorder.PID_FILE host) w).
Proof.
  intros H Ha. unfold Recorder.checkIsRecording, bind.
  rewrite (existsSync_found _ _ _ H). cbn [negb].
  unfold readFileSync. rewrite H.
  unfold tryCatch. rewrite (kill0_dead _ _ Ha).
  unfold unlinkSync. by rewrite H.
Qed.

Lemma isRecording_absent w :
  stat w (Toggle.PID_FILE host) = None →
  Toggle.isRecording host w = Ok false w.
Proof.
  intros H. unfold Toggle.isRecording, bind.
  by rewrite (existsSync_absent _ _ H).
Qed.

Lemma isRecording_alive w text :
  stat w (Toggle.PID_FILE host) = Some (File true text) →
  alive w (Js.trim text) →
  Toggle.isRecording host w = Ok true w.
Proof.
  intros H Ha. unfold Toggle.isRecording, bind.
  rewrite (existsSync_found _ _ _ H). cbn [negb].
  unfold readFileSync. rewrite H.
  unfold tryCatch. by rewrite (kill0_alive _ _ Ha).
Qed.

Lemma isRecording_dead w text :
  stat w (Toggle.PID_FILE host) = Some (File true text) →
  ¬ alive w (Js.trim text) →
  Toggle.isRecording host w = Ok false (without (Toggle.PID_FILE host) w).
Proof.
  intros H Ha. unfold Toggle.isRecording, bind.
  rewrite (existsSync_found _ _ _ H). cbn [negb].
  unfold readFileSync. rewrite H.
  unfold tryCatch. rewrite (kill0_dead _ _ Ha).
  unfold unlinkSync. by rewrite H.
Qed.

End StatusCheck.

(** * Stopping *)

Lemma quiet_ret {A} (a : A) : quiet (ret a).
Proof. by intros w. Qed.

Lemma quiet_execSync c : quiet (execSync c).
Proof. intros w. apply execSync_frame. Qed.

Lemma quiet_bind {A B} (m : M A) (k : A → M B) :
  quiet m → (∀ a, quiet (k a)) → quiet (bind m k).
Proof.
  intros Hm Hk w. unfold bind. specialize (Hm w).
  destruct (m w) as [a w1|e w1]; [|done].
  specialize (Hk a w1). destruct (k a w1); destruct Hm, Hk; split; congruence.
Qed.

(** A [try] whose handler does nothing always completes. *)
Lemma tryCatch_swallow (m : M unit) w :
  quiet m →
  ∃ w', tryCatch m (fun _ => ret tt) w = Ok tt w' ∧
        fs w' = fs w ∧ cwd w' = cwd w.
Proof.
  intros Hm. unfold tryCatch, ret. specialize (Hm w).
  destruct (m w) as [[] w1|e w1]; eauto.
Qed.

Lemma bind_ok {A B} (m : M A) (k : A → M B) w a w1 :
  m w = Ok a w1 → bind m k w = k a w1.
Proof. intros H. unfold bind. by rewrite H. Qed.

Lemma bind_inv_ok {A B} (m : M A) (k : A → M B) w b w' :
  bind m k w = Ok b w' → ∃ a w1, m w = Ok a w1 ∧ k a w1 = Ok b w'.
Proof. unfold bind. destruct (m w) as [a w1|]; [eauto|discriminate]. Qed.

Lemma unlinkSync_file w p a c :
  stat w p = Some (File a c) → unlinkSync p w = Ok tt (without p w).
Proof. intros H. unfold unlinkSync. by rewrite H. Qed.

Lemma writeFileSync_ok w p data w' :
  writeFileSync p data w = Ok tt w' →
  w' = putFile p (File true data) w ∧ stat w' p = Some (File true data).
Proof.
  unfold writeFileSync. intros H.
  assert (p ≠ "" ∧ stat w p ≠ Some Dir ∧ w' = putFile p (File true data) w)
    as (Hp & Hd & ->).
  { destruct p; [done|]. destruct (stat w (String a p)) as [[[]|]|];
      simplify_eq; done. }
  split; [done|]. by apply stat_putFile.
Qed.

Lemma writeFileSync_pre w p data w' :
  writeFileSync p data w = Ok tt w' → p ≠ "" ∧ stat w p ≠ Some Dir.
Proof.
  unfold writeFileSync. intros H. destruct p; [done|].
  split; [done|]. intros Hd. by rewrite Hd in H.
Qed.

Section Stopping.

Variable host : Host.

Lemma stop_absent w :
  stat w (Recorder.PID_FILE host) = None →
  Recorder.stopRecording host w = Ok tt w.
Proof.
  intros H. unfold Recorder.stopRecording.
  by rewrite (bind_ok _ _ _ _ _ (existsSync_absent _ _ H)).
Qed.

Lemma stop_present w text :
  stat w (Recorder.PID_FILE host) = Some (File true text) →
  ∃ w1, Recorder.stopRecording host w
        = Ok tt (without (Recorder.PID_FILE host) w1) ∧
        fs w1 = fs w ∧ cwd w1 = cwd w.
Proof.
  intros H. unfold Recorder.stopRecording.
  rewrite (bind_ok _ _ _ _ _ (existsSync_found _ _ _ H)). cbn [negb].
  assert (readFileSync (Recorder.PID_FILE host) w = Ok text w) as Hr
    by (unfold readFileSync; by rewrite H).
  rewrite (bind_ok _ _ _ _ _ Hr).
  destruct (tryCatch_swallow
              (execSync (KillInt (Js.trim text)) ;; execSync Sleep1 ;; ret tt) w)
    as (w1 & Ht & Hf & Hc).
  { repeat (apply quiet_bind; [|intros ?]);
      auto using quiet_execSync, quiet_ret. }
  rewrite (bind_ok _ _ _ _ _ Ht).
  assert (stat w1 (Recorder.PID_FILE host) = Some (File true text)) as H1
    by (by rewrite (stat_frame _ _ _ Hf Hc)).
  rewrite (bind_ok _ _ _ _ _ (existsSync_found _ _ _ H1)).
  rewrite (unlinkSync_file _ _ _ _ H1). eauto.
Qed.

Lemma toggle_stop_present w text :
  stat w (Toggle.PID_FILE host) = Some (File true text) →
  ∃ w1, Toggle.stopRecording host w
        = Ok tt (without (Toggle.PID_FILE host) w1) ∧
        fs w1 = fs w ∧ cwd w1 = cwd w.
Proof.
  intros H. unfold Toggle.stopRecording.
  assert (readFileSync (Toggle.PID_FILE host) w = Ok text w) as Hr
    by (unfold readFileSync; by rewrite H).
  rewrite (bind_ok _ _ _ _ _ Hr).
  destruct (tryCatch_swallow
              (execSync (KillInt (Js.trim text)) ;; ret tt) w)
    as (w1 & Ht & Hf & Hc).
  { repeat (apply quiet_bind; [|intros ?]);
      auto using quiet_execSync, quiet_ret. }
  rewrite (bind_ok _ _ _ _ _ Ht).
  assert (stat w1 (Toggle.PID_FILE host) = Some (File true text)) as H1
    by (by rewrite (stat_frame _ _ _ Hf Hc)).
  rewrite (bind_ok _ _ _ _ _ (existsSync_found _ _ _ H1)).
  rewrite (unlinkSync_file _ _ _ _ H1). eauto.
Qed.

Lemma toggle_stop_absent w :
  stat w (Toggle.PID_FILE host) = None →
  Toggle.stopRecording host w
  = Throw (FsError ENOENT (Toggle.PID_FILE host)) w.
Proof.
  intros H. unfold Toggle.stopRecording, bind, readFileSync. by rewrite H.
Qed.

(** A start that returns has written the marker last. *)
Lemma start_writes_marker prefs w w1 :
  Recorder.startRecording host prefs w = Ok tt w1 →
  ∃ text, stat w1 (Recorder.PID_FILE host) = Some (File true text).
Proof.
  unfold Recorder.startRecording. intros H.
  repeat (apply bind_inv_ok in H as (? & ? & _ & H); cbv beta zeta in H).
  apply writeFileSync_ok in H as [_ H]. eauto.
Qed.

Lemma toggle_start_writes_marker prefs w w1 :
  Toggle.startRecording host prefs w = Ok tt w1 →
  ∃ text, stat w1 (Toggle.PID_FILE host) = Some (File true text).
Proof.
  unfold Toggle.startRecording. intros H.
  repeat (apply bind_inv_ok in H as (? & ? & _ & H); cbv beta zeta in H).
  apply writeFileSync_ok in H as [_ H]. eauto.
Qed.

End Stopping.

(** * Strings: splitting and joining *)

Lemma append_cons c a b : String c a +:+ b = String c (a +:+ b).
Proof. reflexivity. Qed.

Lemma append_nil_l s : "" +:+ s = s.
Proof. reflexivity. Qed.

Lemma append_nil_r s : s +:+ "" = s.
Proof. induction s as [|c s IH]; [done|]. by rewrite append_cons, IH. Qed.

Lemma append_assoc a b c : (a +:+ b) +:+ c = a +:+ (b +:+ c).
Proof. induction a as [|x a IH]; [done|]. by rewrite !append_cons, IH. Qed.

Lemma hasChar_append c a b : hasChar c (a +:+ b) = hasChar c a || hasChar c b.
Proof.
  induction a as [|x a IH]; [done|].
  rewrite append_cons. simpl. rewrite IH. by rewrite orb_assoc.
Qed.

Lemma split_cons sep s : ∃ h t, Js.split sep s = h :: t.
Proof.
  induction s as [|c s (h & t & IH)]; simpl; [eauto|].
  destruct (Ascii.eqb c sep); [eauto|]. rewrite IH. eauto.
Qed.

Lemma split_append_sep sep a b :
  Js.split sep (a +:+ String sep b) = Js.split sep a ++ Js.split sep b.
Proof.
  induction a as [|c a IH].
  - rewrite append_nil_l. simpl. by rewrite Ascii.eqb_refl.
  - rewrite append_cons. simpl. rewrite IH.
    destruct (Ascii.eqb c sep); [done|].
    destruct (split_cons sep a) as (h & t & ->). done.
Qed.

Lemma split_plain sep s : hasChar sep s = false → Js.split sep s = [s].
Proof.
  induction s as [|c s IH]; [done|]. simpl.
  intros [Hc Hs]%orb_false_elim. rewrite Hc, (IH Hs). done.
Qed.

Lemma split_pieces_plain sep s :
  Forall (fun x => hasChar sep x = false) (Js.split sep s).
Proof.
  induction s as [|c s IH]; simpl; [by repeat constructor|].
  destruct (Ascii.eqb c sep) eqn:E; [by constructor|].
  destruct (Js.split sep s) as [|h t]; [by repeat constructor; simpl; rewrite E|].
  inversion IH; subst. constructor; [|done]. simpl. by rewrite E.
Qed.

Lemma join_cons sep x y l :
  Js.join sep (x :: y :: l) = x +:+ sep +:+ Js.join sep (y :: l).
Proof. reflexivity. Qed.

Lemma split_join sep l :
  l ≠ [] → Forall (fun x => hasChar sep x = false) l →
  Js.split sep (Js.join (String sep "") l) = l.
Proof.
  induction l as [|x [|y l] IH]; [done| |]; intros _ Hl.
  - inversion Hl; subst. by apply split_plain.
  - inversion Hl as [|? ? Hx Hr]; subst.
    rewrite join_cons, append_cons, append_nil_l, split_append_sep.
    rewrite (split_plain _ _ Hx), IH; done.
Qed.

(** * Paths *)

Lemma step_push above st x : normalSeg x → Path.step above st x = x :: st.
Proof.
  intros (H1 & H2 & H3). unfold Path.step.
  rewrite decide_False by (intros [?|?]; done). by rewrite decide_False.
Qed.

Lemma step_skip above st x : x = "" ∨ x = "." → Path.step above st x = st.
Proof. intros H. unfold Path.step. by rewrite decide_True. Qed.

Lemma seg_cases x : (x = "" ∨ x = ".") ∨ x = ".." ∨ normalSeg x.
Proof.
  unfold normalSeg.
  destruct (decide (x = "")), (decide (x = ".")), (decide (x = "..")); auto.
Qed.

Lemma fold_push S acc :
  Forall normalSeg acc → fold_left (Path.step false) (rev acc) S = acc ++ S.
Proof.
  induction acc as [|x acc IH]; [done|]. intros H. inversion H; subst.
  simpl. rewrite fold_left_app. simpl. rewrite IH by done. by apply step_push.
Qed.

Lemma fold_step_false_normal xs acc :
  Forall normalSeg acc → Forall normalSeg (fold_left (Path.step false) xs acc).
Proof.
  revert acc. induction xs as [|x xs IH]; [done|]. intros acc H. simpl.
  apply IH. destruct (seg_cases x) as [Hx|[->|Hx]].
  - by rewrite step_skip.
  - unfold Path.step. simpl. destruct acc; [done|]. by inversion H.
  - rewrite step_push by done. by constructor.
Qed.

Lemma kept_dotdot : keptSeg "..".
Proof. by split. Qed.

Lemma fold_step_true_kept xs acc :
  Forall keptSeg acc → Forall keptSeg (fold_left (Path.step true) xs acc).
Proof.
  revert acc. induction xs as [|x xs IH]; [done|]. intros acc H. simpl.
  apply IH. destruct (seg_cases x) as [Hx|[->|Hx]].
  - by rewrite step_skip.
  - unfold Path.step. simpl. destruct acc as [|top rest].
    { constructor; [apply kept_dotdot|constructor]. }
    case_bool_decide; [|by inversion H].
    constructor; [apply kept_dotdot|done].
  - rewrite step_push by done. constructor; [|done].
    destruct Hx as (? & ? & ?). by split.
Qed.

(** Resolving the segments that relative normalization keeps gives what
    resolving the original segments gives. *)
Lemma fold_resolve_normalized S0 xs acc :
  Forall keptSeg acc →
  fold_left (Path.step false) (rev (fold_left (Path.step true) xs acc)) S0
  = fold_left (Path.step false) xs (fold_left (Path.step false) (rev acc) S0).
Proof.
  revert acc. induction xs as [|x xs IH]; [done|]. intros acc H. simpl.
  assert (Forall keptSeg (Path.step true acc x)) as H'
    by apply (fold_step_true_kept [x] acc H).
  rewrite (IH _ H'). f_equal.
  destruct (seg_cases x) as [Hx|[->|Hx]].
  - by rewrite !step_skip.
  - destruct acc as [|top rest]; [done|].
    unfold Path.step at 2. simpl. case_bool_decide as Htop.
    + subst top. simpl. by rewrite fold_left_app.
    + inversion H as [|? ? [Ht1 Ht2] Hr]; subst.
      simpl. rewrite fold_left_app. simpl.
      rewrite (step_push false _ top) by done. done.
  - rewrite !step_push by done. simpl. rewrite fold_left_app. simpl.
    by rewrite step_push.
Qed.

Lemma fold_step_Forall (P : string → Prop) above xs acc :
  P ".." → Forall P xs → Forall P acc →
  Forall P (fold_left (Path.step above) xs acc).
Proof.
  intros Hdd Hxs. revert acc. induction Hxs as [|x xs Hx Hxs IH]; [done|].
  intros acc Hacc. simpl. apply IH. unfold Path.step.
  repeat case_match; try done; try (by constructor).
  by inversion Hacc.
Qed.

Lemma join_empty sep l :
  Forall (fun x => x ≠ "") l → Js.join sep l = "" → l = [].
Proof.
  destruct l as [|x [|y l]]; [done| |]; intros H; inversion H; subst.
  - simpl. done.
  - rewrite join_cons. destruct x; [done|]. by rewrite append_cons.
Qed.

Lemma kept_nonempty l : Forall keptSeg l → Forall (fun x => x ≠ "") l.
Proof. intros H. eapply Forall_impl; [exact H|]. by intros x [? ?]. Qed.

Lemma normal_kept l : Forall normalSeg l → Forall keptSeg l.
Proof.
  intros H. eapply Forall_impl; [exact H|]. intros x (? & ? & ?). by split.
Qed.

Lemma normalizeString_kept above p :
  Forall keptSeg (Path.normalizeString above p).
Proof.
  unfold Path.normalizeString. apply Forall_rev.
  destruct above; [by apply fold_step_true_kept|].
  apply normal_kept. by apply fold_step_false_normal.
Qed.

Lemma normalizeString_plain above p :
  Forall (fun x => hasChar Path.sep x = false) (Path.normalizeString above p).
Proof.
  unfold Path.normalizeString. apply Forall_rev.
  apply fold_step_Forall; [done|apply split_pieces_plain|constructor].
Qed.

Lemma normalize_shape p :
  p ≠ "" →
  let abs := Path.isAbsolute p in
  let segs := Path.normalizeString (negb abs) p in
  (segs = [] ∧
   Path.normalize p = if abs then "/" else if Path.endsWithSep p then "./" else ".")
  ∨
  (segs ≠ [] ∧
   Path.normalize p
   = (if abs then "/" else "") +:+ Js.join "/" segs
       +:+ (if Path.endsWithSep p then "/" else "")).
Proof.
  intros Hp abs segs. unfold Path.normalize. destruct p as [|c r]; [done|].
  fold abs. fold segs.
  destruct (Js.join "/" segs) eqn:E.
  - left. split; [|done].
    apply (join_empty "/"); [|done].
    apply kept_nonempty, normalizeString_kept.
  - right. split; [|done]. intros Hs. by rewrite Hs in E.
Qed.

Lemma normalize_nonempty p : Path.normalize p ≠ "".
Proof.
  destruct (decide (p = "")) as [->|Hp]; [done|].
  destruct (normalize_shape p Hp) as [[_ ->]|[Hs ->]].
  - by repeat case_match.
  - destruct (Path.normalizeString _ p) as [|x l] eqn:E; [done|].
    pose proof (normalizeString_kept (negb (Path.isAbsolute p)) p) as Hk.
    rewrite E in Hk. inversion Hk as [|? ? [Hx _] _]; subst.
    destruct x as [|c x]; [done|].
    destruct (Path.isAbsolute p); [done|].
    rewrite append_nil_l. destruct l; simpl; [by rewrite append_cons|].
    by rewrite !append_cons.
Qed.

Lemma joinAll_nonempty parts : Path.joinAll parts ≠ "".
Proof.
  unfold Path.joinAll. case_match; [done|apply normalize_nonempty].
Qed.

Lemma isAbsolute_append a b :
  a ≠ "" → Path.isAbsolute (a +:+ b) = Path.isAbsolute a.
Proof. destruct a; [done|]. by rewrite append_cons. Qed.

Lemma isAbsolute_plain x :
  x ≠ "" → hasChar Path.sep x = false → Path.isAbsolute x = false.
Proof.
  destruct x as [|c x]; [done|]. simpl. intros _ H.
  by apply orb_false_elim in H as [H _].
Qed.

Lemma resolve_unfold cwd p :
  Path.resolve cwd p
  = rev (fold_left (Path.step false) (Js.split Path.sep p)
           (if Path.isAbsolute p then [] else rev cwd)).
Proof. reflexivity. Qed.

(** Normalizing a path does not change the file it names. *)
Lemma resolve_normalize cwd p :
  p ≠ "" → Path.resolve cwd (Path.normalize p) = Path.resolve cwd p.
Proof.
  intros Hp.
  pose proof (normalizeString_kept (negb (Path.isAbsolute p)) p) as Hk.
  pose proof (normalizeString_plain (negb (Path.isAbsolute p)) p) as Hplain.
  assert (rev (fold_left (Path.step false)
                 (Path.normalizeString (negb (Path.isAbsolute p)) p)
                 (if Path.isAbsolute p then [] else rev cwd))
          = Path.resolve cwd p) as Hsegs.
  { rewrite resolve_unfold. f_equal. unfold Path.normalizeString.
    destruct (Path.isAbsolute p); simpl.
    - rewrite fold_push by (by apply fold_step_false_normal).
      by rewrite app_nil_r.
    - by rewrite fold_resolve_normalized. }
  destruct (normalize_shape p Hp) as [[Hs ->]|[Hs ->]].
  - rewrite Hs in Hsegs. simpl in Hsegs. rewrite <- Hsegs.
    destruct (Path.isAbsolute p); [done|].
    destruct (Path.endsWithSep p); rewrite resolve_unfold; simpl;
      rewrite !step_skip by auto; done.
  - rewrite <- Hsegs.
    set (segs := Path.normalizeString (negb (Path.isAbsolute p)) p) in *.
    assert (Js.split Path.sep
              (Js.join "/" segs +:+ (if Path.endsWithSep p then "/" else ""))
            = segs ++ (if Path.endsWithSep p then [""] else [])) as Hsplit.
    { destruct (Path.endsWithSep p).
      - change "/" with (String Path.sep "") at 2.
        rewrite split_append_sep. f_equal. by apply split_join.
      - rewrite append_nil_r, app_nil_r. by apply split_join. }
    assert (∀ S, fold_left (Path.step false)
                   (segs ++ (if Path.endsWithSep p then [""] else [])) S
                 = fold_left (Path.step false) segs S) as Hfold.
    { intros S. rewrite fold_left_app. destruct (Path.endsWithSep p); [|done].
      simpl. by rewrite step_skip by auto. }
    rewrite resolve_unfold.
    destruct (Path.isAbsolute p) eqn:Habs.
    + change ("/" +:+ ?x) with (String Path.sep x).
      cbn [Path.isAbsolute Js.split]. rewrite Ascii.eqb_refl.
      rewrite Hsplit. cbn [fold_left]. rewrite step_skip by auto.
      by rewrite Hfold.
    + rewrite append_nil_l, Hsplit, Hfold.
      destruct segs as [|x l] eqn:E; [done|].
      inversion Hk as [|? ? [Hx _] _]; inversion Hplain; subst.
      assert (Path.isAbsolute
                (Js.join "/" (x :: l) +:+ (if Path.endsWithSep p then "/" else ""))
              = false) as ->; [|done].
      destruct l.
      * simpl. rewrite isAbsolute_append by done. by apply isAbsolute_plain.
      * rewrite join_cons, !append_assoc, isAbsolute_append by done.
        by apply isAbsolute_plain.
Qed.

(** * The log tail and the resolution probe *)

Section LogTail.

Variable host : Host.

Lemma readLogTail_absent w :
  stat w (Recorder.LOG_FILE host) = None →
  Recorder.readLogTail host w
  = Ok "_No log yet. Start a recording to see ffmpeg output here._" w.
Proof.
  intros H. unfold Recorder.readLogTail, tryCatch.
  by rewrite (bind_ok _ _ _ _ _ (existsSync_absent _ _ H)).
Qed.

Lemma readLogTail_text w c :
  stat w (Recorder.LOG_FILE host) = Some (File true c) →
  Recorder.readLogTail host w
  = Ok (match Js.trim c with
        | EmptyString => "_Log is empty_"
        | content =>
            Js.join (String Shell.nl "")
              (Js.sliceLast 25 (Js.split Shell.nl content))
        end) w.
Proof.
  intros H. unfold Recorder.readLogTail, tryCatch.
  rewrite (bind_ok _ _ _ _ _ (existsSync_found _ _ _ H)). cbn [negb].
  assert (readFileSync (Recorder.LOG_FILE host) w = Ok c w) as Hr
    by (unfold readFileSync; by rewrite H).
  rewrite (bind_ok _ _ _ _ _ Hr). by destruct (Js.trim c).
Qed.

Lemma readLogTail_closed w n :
  stat w (Recorder.LOG_FILE host) = Some n →
  (∀ c, n ≠ File true c) →
  Recorder.readLogTail host w = Ok "_Could not read log_" w.
Proof.
  intros H Hn. unfold Recorder.readLogTail, tryCatch.
  rewrite (bind_ok _ _ _ _ _ (existsSync_found _ _ _ H)). cbn [negb].
  unfold bind, readFileSync. rewrite H.
  destruct n as [[] c|]; [by destruct (Hn c)|done|done].
Qed.

Lemma readLogTail_total w : ∃ s, Recorder.readLogTail host w = Ok s w.
Proof.
  destruct (stat w (Recorder.LOG_FILE host)) as [[[] c|]|] eqn:E.
  - rewrite (readLogTail_text _ _ E). eauto.
  - rewrite (readLogTail_closed _ _ E); [eauto|done].
  - rewrite (readLogTail_closed _ _ E); [eauto|done].
  - rewrite (readLogTail_absent _ E). eauto.
Qed.

End LogTail.

Lemma detectResolution_failed display w :
  awkStatus w ≠ 0 → Recorder.detectResolution display w = Ok "1920x1080" w.
Proof.
  intros H. unfold Recorder.detectResolution, tryCatch, bind. simpl.
  apply Z.eqb_neq in H. by rewrite H.
Qed.

Lemma detectResolution_ran display w :
  awkStatus w = 0 →
  Recorder.detectResolution display w
  = Ok (Js.orElse
          (Some (Js.trim
                   (Shell.awkPrint2
                      (Shell.grep "dimensions"
                         (Shell.textLines (default "" (xdpyinfo w !! display)))))))
          "1920x1080") w.
Proof.
  intros H. unfold Recorder.detectResolution, tryCatch, bind. simpl.
  by rewrite H.
Qed.

Lemma detectResolution_total display w :
  ∃ s, Recorder.detectResolution display w = Ok s w.
Proof.
  destruct (decide (awkStatus w = 0)) as [H0|H0].
  - rewrite (detectResolution_ran display w H0). eauto.
  - rewrite (detectResolution_failed display w H0). eauto.
Qed.

(** * Joined paths *)

Lemma join_unfold d f :
  f ≠ "" →
  Path.join d f = Path.normalize (if decide (d = "") then f else d +:+ "/" +:+ f).
Proof.
  intros Hf. unfold Path.join, Path.joinAll.
  rewrite filter_cons. case_decide as Hd.
  - rewrite filter_cons, decide_True, filter_nil by done.
    by rewrite decide_False.
  - rewrite filter_cons, decide_True, filter_nil by done.
    by rewrite decide_True.
Qed.

(** A file name joined to a directory names the entry of that name in
    the directory. *)
Lemma resolve_join cwd d f :
  fileName f →
  Path.resolve cwd (Path.join d f) = Path.resolve cwd d ++ [f].
Proof.
  intros [Hn Hplain]. assert (f ≠ "") as Hf by apply Hn.
  rewrite join_unfold by done. case_decide as Hd.
  - subst d. rewrite resolve_normalize by done.
    rewrite !resolve_unfold, (split_plain _ _ Hplain).
    rewrite (isAbsolute_plain _ Hf Hplain). simpl.
    rewrite step_push, step_skip by auto. simpl. by rewrite rev_involutive.
  - rewrite resolve_normalize by (destruct d; done).
    rewrite !resolve_unfold.
    change ("/" +:+ f) with (String Path.sep f).
    rewrite split_append_sep, (split_plain _ _ Hplain), fold_left_app.
    rewrite isAbsolute_append by done. simpl. by rewrite step_push.
Qed.

Lemma join_distinct d1 d2 f1 f2 :
  fileName f1 → fileName f2 → f1 ≠ f2 → Path.join d1 f1 ≠ Path.join d2 f2.
Proof.
  intros H1 H2 Hne Heq.
  pose proof (resolve_join [] d1 f1 H1) as E1.
  pose proof (resolve_join [] d2 f2 H2) as E2.
  rewrite Heq, E2 in E1. by apply app_inj_tail in E1 as [_ ?].
Qed.

Lemma marker_name : fileName "raycast-ffmpeg.pid".
Proof. by repeat split. Qed.

Lemma log_name : fileName "ffmpeg-recording.log".
Proof. by repeat split. Qed.

Lemma marker_not_log host w :
  Path.resolve (cwd w) (Recorder.PID_FILE host)
  ≠ Path.resolve (cwd w) (Recorder.LOG_FILE host).
Proof.
  unfold Recorder.PID_FILE, Recorder.LOG_FILE.
  rewrite (resolve_join _ _ _ marker_name), (resolve_join _ _ _ log_name).
  intros H. by apply app_inj_tail in H as [_ ?].
Qed.

Lemma stat_putFile_other w p q f :
  Path.resolve (cwd w) p ≠ Path.resolve (cwd w) q →
  stat (putFile p f w) q = stat w q.
Proof.
  intros H. unfold stat, putFile. simpl. destruct q; [done|].
  destruct (Path.resolve (cwd w) (String a q)); [done|].
  by apply lookup_insert_ne.
Qed.

Lemma stat_without_other w p q :
  Path.resolve (cwd w) p ≠ Path.resolve (cwd w) q →
  stat (without p w) q = stat w q.
Proof.
  intros H. unfold stat, without. simpl. destruct q; [done|].
  destruct (Path.resolve (cwd w) (String a q)); [done|].
  by apply lookup_delete_ne.
Qed.

(** * Starting *)

Lemma getOutputDir_inv host prefs w dir w' :
  Recorder.getOutputDir host prefs w = Ok dir w' →
  dir = Js.orElse (Js.trim <$> Recorder.outputDir prefs)
                  (Path.join (homedir host) "Videos") ∧
  (w' = w ∨ ∃ f, w' = setFs f w).
Proof.
  unfold Recorder.getOutputDir. intros H.
  apply bind_inv_ok in H as (found & w1 & Hex & H).
  unfold existsSync, gets in Hex. injection Hex as <- <-.
  apply bind_inv_ok in H as ([] & w2 & Hmk & H).
  unfold ret in H. injection H as <- <-. split; [done|].
  destruct (bool_decide _); simpl in Hmk.
  - unfold ret in Hmk. injection Hmk as <-. by left.
  - unfold mkdirSyncRecursive in Hmk. right.
    repeat case_match; simplify_eq. eauto.
Qed.

Lemma detectResolution_inv display w s w' :
  Recorder.detectResolution display w = Ok s w' → w' = w.
Proof.
  destruct (detectResolution_total display w) as [s' H].
  rewrite H. by intros [= _ <-].
Qed.

Lemma openSync_append_existing w p c :
  stat w p = Some (File true c) → openSync p OpenA w = Ok (Fd p) w.
Proof.
  intros H. unfold openSync. destruct p; [done|]. by rewrite H.
Qed.

Lemma spawn_inv cmd args w child ws :
  spawn cmd args w = Ok child ws →
  spawned ws = (cmd, args) :: spawned w ∧ fs ws = fs w ∧ cwd ws = cwd w ∧
  clock ws = clock w ∧
  (∀ err rest, launches w = Fails err :: rest →
     childPid child = None ∧
     pending ws = pending w ++ [ChildError (childId child) err false]).
Proof.
  unfold spawn. intros H.
  destruct (launches w) as [|[n|e] r]; injection H as <- <-; simpl;
    (split; [done|split; [done|split; [done|split; [done|]]]]);
    intros e' r' [= -> ->]; done.
Qed.

Lemma onError_inv c w u w' :
  onError c w = Ok u w' →
  fs w' = fs w ∧ cwd w' = cwd w ∧ spawned w' = spawned w ∧ clock w' = clock w ∧
  pending w'
  = map (fun e =>
           if Nat.eqb (owner e) (childId c)
           then ChildError (owner e) (errText e) true else e)
      (pending w).
Proof. unfold onError, modify. by intros [= _ <-]. Qed.

Section Starting.

Variable host : Host.

(** What a start that returned has done: chosen the directory, started
    the recorder with the output file as the last argument, on a machine
    whose log holds the header, and written the marker. *)
Lemma start_trace prefs w w1 :
  Recorder.startRecording host prefs w = Ok tt w1 →
  ∃ dir wa args header child ws we,
    Recorder.getOutputDir host prefs w = Ok dir wa ∧
    last args
    = Some (Path.join dir
              ("recording-" +:+ Recorder.timestamp (clock wa) +:+ ".mp4")) ∧
    spawn "ffmpeg" args (putFile (Recorder.LOG_FILE host) (File true header) wa)
    = Ok child ws ∧
    onError child ws = Ok tt we ∧
    w1 = putFile (Recorder.PID_FILE host)
           (File true (Js.stringOfPid (childPid child))) we ∧
    stat (putFile (Recorder.LOG_FILE host) (File true header) wa)
         (Recorder.LOG_FILE host) = Some (File true header) ∧
    stat w1 (Recorder.PID_FILE host)
    = Some (File true (Js.stringOfPid (childPid child))) ∧
    stat wa (Recorder.LOG_FILE host) ≠ Some Dir ∧
    stat we (Recorder.PID_FILE host) ≠ Some Dir.
Proof.
  unfold Recorder.startRecording. intros H.
  apply bind_inv_ok in H as (dir & wa & Hdir & H). cbv beta zeta in H.
  apply bind_inv_ok in H as (t & w2 & Ht & H). cbv beta zeta in H.
  unfold Date.now, gets in Ht. injection Ht as <- <-.
  apply bind_inv_ok in H as (res & w3 & Hres & H). cbv beta zeta in H.
  apply detectResolution_inv in Hres as ->.
  apply bind_inv_ok in H as ([] & w4 & Hlog & H).
  pose proof (writeFileSync_pre _ _ _ _ Hlog) as [_ Hlog0].
  apply writeFileSync_ok in Hlog as [-> Hlog].
  apply bind_inv_ok in H as (fd & w5 & Hfd & H).
  rewrite (openSync_append_existing _ _ _ Hlog) in Hfd. injection Hfd as <- <-.
  apply bind_inv_ok in H as (child & ws & Hsp & H).
  apply bind_inv_ok in H as ([] & we & Hon & H).
  apply bind_inv_ok in H as ([] & w7 & Hun & H).
  unfold unref, ret in Hun. injection Hun as <-.
  pose proof (writeFileSync_pre _ _ _ _ H) as [_ Hpid0].
  apply writeFileSync_ok in H as [-> Hpid].
  eexists dir, wa, _, _, child, ws, we.
  split; [exact Hdir|].
  split; [|split; [exact Hsp|split; [exact Hon|split; [done|
    split; [exact Hlog|split; [exact Hpid|split; [exact Hlog0|exact Hpid0]]]]]]].
  reflexivity.
Qed.

Lemma toggle_start_trace prefs w w1 :
  Toggle.startRecording host prefs w = Ok tt w1 →
  ∃ wl args child ws,
    fs ws = fs wl ∧ cwd wl = cwd w ∧ cwd ws = cwd w ∧
    last args
    = Some (Path.join
              (Js.orElse (Toggle.outputDir prefs)
                         (Path.join (homedir host) "Desktop"))
              ("recording-" +:+ Toggle.timestamp (clock w) +:+ ".mp4")) ∧
    spawned ws = ("ffmpeg", args) :: spawned w ∧
    w1 = putFile (Toggle.PID_FILE host)
           (File true (Js.stringOfPid (childPid child))) ws.
Proof.
  unfold Toggle.startRecording. intros H.
  apply bind_inv_ok in H as (t & w2 & Ht & H). cbv beta zeta in H.
  unfold Date.now, gets in Ht. injection Ht as <- <-.
  apply bind_inv_ok in H as (out & w3 & Hout & H).
  apply bind_inv_ok in H as (err & w4 & Herr & H).
  apply bind_inv_ok in H as (child & ws & Hsp & H).
  apply bind_inv_ok in H as ([] & w7 & Hun & H).
  unfold unref, ret in Hun. injection Hun as <-.
  apply writeFileSync_ok in H as [-> _].
  apply spawn_inv in Hsp as (Hs & Hf & Hc & _).
  assert (cwd w3 = cwd w ∧ spawned w3 = spawned w) as [Hc3 Hs3].
  { unfold openSync in Hout. repeat case_match; simplify_eq; done. }
  assert (cwd w4 = cwd w3 ∧ spawned w4 = spawned w3) as [Hc4 Hs4].
  { unfold openSync in Herr. repeat case_match; simplify_eq; done. }
  eexists w4, _, child, ws.
  split; [done|]. split; [congruence|]. split; [congruence|].
  split; [|split; [rewrite Hs, Hs4, Hs3; reflexivity|done]].
  reflexivity.
Qed.

End Starting.

(** * A recorder that cannot be started *)

Lemma undefined_names_no_process w : ¬ alive w (Js.trim "undefined").
Proof. by intros (n & Hn & _). Qed.

Lemma launches_after_getOutputDir host prefs w dir wa :
  Recorder.getOutputDir host prefs w = Ok dir wa →
  launches wa = launches w ∧ pending wa = pending w ∧ cwd wa = cwd w ∧
  clock wa = clock w ∧ spawned wa = spawned w.
Proof.
  intros H. apply getOutputDir_inv in H as [_ [->|[f ->]]]; done.
Qed.

(** * The last lines of the log *)

Lemma sliceLast_length {A} n (l : list A) :
  (n ≤ length l)%nat → length (Js.sliceLast n l) = n.
Proof. intros H. unfold Js.sliceLast. rewrite length_drop. lia. Qed.

Lemma sliceLast_lookup {A} n (l : list A) i :
  Js.sliceLast n l !! i = l !! (length l - n + i)%nat.
Proof. unfold Js.sliceLast. apply lookup_drop. Qed.

(** * The output directory *)

Lemma mkdirs_creates ks f :
  (∀ k a c, k ∈ ks → f !! k ≠ Some (File a c)) →
  ∃ f', mkdirs ks f = Some f' ∧
        (∀ k, k ∈ ks → f' !! k = Some Dir) ∧
        (∀ k, k ∉ ks → f' !! k = f !! k) ∧
        (∀ k, f !! k = Some Dir → f' !! k = Some Dir).
Proof.
  revert f. induction ks as [|k r IH]; intros f Hf.
  - exists f. split; [done|]. split; [|done]. intros k Hk. by inversion Hk.
  - simpl. destruct (f !! k) as [[a c|]|] eqn:E.
    + destruct (Hf k a c); [left|done].
    + destruct (IH f) as (f' & Hm & Hin & Hout & Hdir).
      { intros k' a c Hk'. apply Hf. by right. }
      exists f'. split; [done|]. split; [|split; [|done]].
      * intros k' [->|Hk']%elem_of_cons; [by apply Hdir|by apply Hin].
      * intros k' Hk'. apply Hout. intros ?. apply Hk'. by right.
    + destruct (IH (<[k:=Dir]> f)) as (f' & Hm & Hin & Hout & Hdir).
      { intros k' a c Hk'. destruct (decide (k = k')) as [->|Hne].
        - by rewrite lookup_insert_eq.
        - rewrite lookup_insert_ne by done. apply Hf. by right. }
      exists f'. split; [done|]. split; [|split].
      * intros k' [->|Hk']%elem_of_cons; [|by apply Hin].
        apply Hdir. by rewrite lookup_insert_eq.
      * intros k' Hk'. rewrite Hout by (intros ?; apply Hk'; by right).
        apply lookup_insert_ne. intros ->. apply Hk'. by left.
      * intros k' Hk'. apply Hdir. destruct (decide (k = k')) as [->|Hne].
        -- by rewrite lookup_insert_eq.
        -- by rewrite lookup_insert_ne.
Qed.

Lemma prefixes_self k : k ≠ [] → k ∈ prefixes k.
Proof.
  intros Hk. unfold prefixes. apply list_elem_of_fmap.
  exists (length k). split; [by rewrite firstn_all|].
  apply list_elem_of_In, in_seq. destruct k; [done|]. simpl. lia.
Qed.

Section OutputDir.

Variable host : Host.

Lemma unset_falls_back prefs :
  unset (Recorder.outputDir prefs) →
  Js.orElse (Js.trim <$> Recorder.outputDir prefs)
            (Path.join (homedir host) "Videos")
  = Path.join (homedir host) "Videos".
Proof.
  unfold unset. destruct (Recorder.outputDir prefs) as [s|]; [|done].
  simpl. by intros ->.
Qed.

Lemma getOutputDir_found prefs w n :
  let dir := Js.orElse (Js.trim <$> Recorder.outputDir prefs)
                       (Path.join (homedir host) "Videos") in
  stat w dir = Some n → Recorder.getOutputDir host prefs w = Ok dir w.
Proof.
  intros dir H. unfold Recorder.getOutputDir. fold dir.
  by rewrite (bind_ok _ _ _ _ _ (existsSync_found _ _ _ H)).
Qed.

Lemma getOutputDir_creates prefs w :
  let dir := Js.orElse (Js.trim <$> Recorder.outputDir prefs)
                       (Path.join (homedir host) "Videos") in
  stat w dir = None →
  (∀ k a c, k ∈ prefixes (Path.resolve (cwd w) dir) →
            fs w !! k ≠ Some (File a c)) →
  ∃ w', Recorder.getOutputDir host prefs w = Ok dir w' ∧
        stat w' dir = Some Dir ∧
        (∀ k, k ∈ prefixes (Path.resolve (cwd w) dir) → fs w' !! k = Some Dir) ∧
        (∀ k, k ∉ prefixes (Path.resolve (cwd w) dir) → fs w' !! k = fs w !! k).
Proof.
  intros dir H Hf. unfold Recorder.getOutputDir. fold dir.
  rewrite (bind_ok _ _ _ _ _ (existsSync_absent _ _ H)). cbn [negb].
  assert (dir ≠ "") as Hdir.
  { unfold dir. destruct (Recorder.outputDir prefs) as [s|]; simpl;
      [destruct (Js.trim s); [|done]|]; apply joinAll_nonempty. }
  destruct (mkdirs_creates _ _ Hf) as (f' & Hm & Hin & Hout & _).
  exists (setFs f' w).
  assert (mkdirSyncRecursive dir w = Ok tt (setFs f' w)) as Hmk.
  { unfold mkdirSyncRecursive. destruct dir; [done|]. by rewrite Hm. }
  rewrite (bind_ok _ _ _ _ _ Hmk). split; [done|]. split; [|done].
  unfold stat. destruct dir; [done|]. simpl.
  destruct (Path.resolve (cwd w) (String a dir)) eqn:E; [done|].
  apply Hin. by apply prefixes_self.
Qed.

End OutputDir.

(** * Dates: the calendar fields determine the second *)

Lemma allFrom_spec f n z k :
  allFrom f n z = true → z ≤ k < z + Z.of_nat n → f k = true.
Proof.
  revert z. induction n as [|n IH]; intros z H Hk; [lia|].
  simpl in H. apply andb_prop in H as [H1 H2].
  destruct (decide (k = z)) as [->|Hne]; [done|].
  apply (IH (z + 1)); [done|lia].
Qed.

(** Every day of an era is checked by evaluation. *)
Lemma doeCheck_all : allFrom doeCheck daysPerEra 0 = true.
Proof. vm_compute. reflexivity. Qed.

Lemma doeCheck_ok doe : 0 ≤ doe < 146097 → doeCheck doe = true.
Proof.
  intros H. apply (allFrom_spec _ _ _ _ doeCheck_all).
  unfold daysPerEra. lia.
Qed.

Lemma civilOfDoe_spec doe :
  0 ≤ doe < 146097 →
  ∃ yoe m d, Date.civilOfDoe doe = (yoe, m, d) ∧
             0 ≤ yoe ≤ 399 ∧ 1 ≤ m ≤ 12 ∧ 1 ≤ d ≤ 31 ∧ doeOf yoe m d = doe.
Proof.
  intros H. pose proof (doeCheck_ok doe H) as Hc. unfold doeCheck in Hc.
  destruct (Date.civilOfDoe doe) as [[yoe m] d].
  exists yoe, m, d. split; [done|].
  repeat (apply andb_prop in Hc as [Hc ?]). lia.
Qed.

Lemma civil_spec z :
  ∃ y m d, Date.civil z = (y, m, d) ∧ 1 ≤ m ≤ 12 ∧ 1 ≤ d ≤ 31 ∧ daysOf y m d = z.
Proof.
  unfold Date.civil.
  assert (0 ≤ (z + 719468) mod 146097 < 146097) as Hr
    by (apply Z.mod_pos_bound; lia).
  destruct (civilOfDoe_spec _ Hr) as (yoe & m & d & -> & Hy & Hm & Hd & Hdoe).
  eexists _, m, d. split; [reflexivity|]. split; [done|]. split; [done|].
  unfold daysOf.
  replace (yoe + (z + 719468) / 146097 * 400 + (if m <=? 2 then 1 else 0)
           - (if m <=? 2 then 1 else 0))
    with (yoe + (z + 719468) / 146097 * 400) by lia.
  rewrite Z.div_add, Z.mod_add by lia.
  rewrite Z.div_small, Z.mod_small by lia.
  rewrite Hdoe. simpl.
  pose proof (Z.div_mod (z + 719468) 146097). lia.
Qed.

Lemma utc_spec t :
  let f := Date.utc t in
  1 ≤ Date.month f ≤ 12 ∧ 1 ≤ Date.day f ≤ 31 ∧ 0 ≤ Date.hours f ≤ 23 ∧
  0 ≤ Date.minutes f ≤ 59 ∧ 0 ≤ Date.seconds f ≤ 59 ∧
  epochSeconds f = t / 1000.
Proof.
  unfold Date.utc, epochSeconds.
  destruct (civil_spec (t / Date.msPerDay)) as (y & m & d & -> & Hm & Hd & Hdays).
  simpl. rewrite Hdays. unfold Date.msPerDay.
  split; [done|]. split; [done|].
  repeat split; Z.div_mod_to_equations; lia.
Qed.

(** * Timestamps *)

Lemma digit_cases d :
  0 ≤ d < 10 →
  d = 0 ∨ d = 1 ∨ d = 2 ∨ d = 3 ∨ d = 4 ∨ d = 5 ∨ d = 6 ∨ d = 7 ∨ d = 8 ∨ d = 9.
Proof. lia. Qed.

Lemma digitChar_kept n :
  (Ascii.eqb (Js.digitChar (n mod 10)) ":"
   || Ascii.eqb (Js.digitChar (n mod 10)) ".") = false.
Proof.
  assert (0 ≤ n mod 10 < 10) as H by (apply Z.mod_pos_bound; lia).
  destruct (digit_cases _ H) as [->|[->|[->|[->|[->|[->|[->|[->|[->| ->]]]]]]]]];
    reflexivity.
Qed.

Lemma digitChar_plain n : Ascii.eqb (Js.digitChar (n mod 10)) Path.sep = false.
Proof.
  assert (0 ≤ n mod 10 < 10) as H by (apply Z.mod_pos_bound; lia).
  destruct (digit_cases _ H) as [->|[->|[->|[->|[->|[->|[->|[->|[->| ->]]]]]]]]];
    reflexivity.
Qed.

Lemma digitChar_inj a b :
  0 ≤ a < 10 → 0 ≤ b < 10 → Js.digitChar a = Js.digitChar b → a = b.
Proof.
  intros Ha Hb.
  destruct (digit_cases _ Ha) as [->|[->|[->|[->|[->|[->|[->|[->|[->| ->]]]]]]]]];
  destruct (digit_cases _ Hb) as [->|[->|[->|[->|[->|[->|[->|[->|[->| ->]]]]]]]]];
    (reflexivity || discriminate).
Qed.

Lemma pad_inj width n n' acc acc' :
  0 ≤ n < 10 ^ Z.of_nat width → 0 ≤ n' < 10 ^ Z.of_nat width →
  Date.pad width n acc = Date.pad width n' acc' → n = n' ∧ acc = acc'.
Proof.
  revert n n' acc acc'. induction width as [|width IH]; intros n n' acc acc' Hn Hn'.
  - simpl in *. intros ->. split; [lia|done].
  - rewrite Nat2Z.inj_succ, Z.pow_succ_r in Hn, Hn' by lia. simpl. intros H.
    apply IH in H as [Hq Hs]; [| Z.div_mod_to_equations; lia ..].
    injection Hs as Hd ->.
    apply digitChar_inj in Hd; [|apply Z.mod_pos_bound; lia ..].
    split; [|done]. Z.div_mod_to_equations. lia.
Qed.

Lemma pad2_inj n n' acc acc' :
  0 ≤ n < 100 → 0 ≤ n' < 100 →
  Date.pad 2 n acc = Date.pad 2 n' acc' → n = n' ∧ acc = acc'.
Proof. apply (pad_inj 2). Qed.

Lemma pad4_inj n n' acc acc' :
  0 ≤ n < 10000 → 0 ≤ n' < 10000 →
  Date.pad 4 n acc = Date.pad 4 n' acc' → n = n' ∧ acc = acc'.
Proof. apply (pad_inj 4). Qed.

Lemma string_tail_eq c a b : String c a = String c b → a = b.
Proof. by intros [= ->]. Qed.

Lemma pad_append width n acc :
  Date.pad width n acc = Date.pad width n "" +:+ acc.
Proof.
  revert n acc. induction width as [|width IH]; intros n acc; [done|].
  simpl. rewrite IH, (IH _ (String _ "")), append_assoc. done.
Qed.

Lemma mapChars_append f a b :
  Js.mapChars f (a +:+ b) = Js.mapChars f a +:+ Js.mapChars f b.
Proof.
  induction a as [|c a IH]; [done|]. rewrite append_cons. simpl.
  by rewrite IH, append_cons.
Qed.

Lemma replace_pad width n acc :
  Js.replaceColonDot (Date.pad width n acc)
  = Date.pad width n (Js.replaceColonDot acc).
Proof.
  revert n acc. induction width as [|width IH]; intros n acc; [done|].
  simpl. rewrite IH. f_equal. unfold Js.replaceColonDot. simpl.
  by rewrite digitChar_kept.
Qed.

Lemma length_pad width n acc :
  String.length (Date.pad width n acc) = (width + String.length acc)%nat.
Proof.
  revert n acc. induction width as [|width IH]; intros n acc; [done|].
  simpl. rewrite IH. simpl. lia.
Qed.

Lemma substring_append n a b :
  String.length a = n → substring 0 n (a +:+ b) = a.
Proof.
  revert n. induction a as [|c a IH]; intros n Hn; simpl in Hn; subst n.
  - rewrite append_nil_l. by destruct b.
  - rewrite append_cons. simpl. by rewrite IH.
Qed.

Lemma toISOString_isoText t :
  fourDigitYear t →
  Date.toISOString t
  = isoText (Date.utc t) "" +:+ String "." (Date.pad 3 (Date.millis (Date.utc t)) "Z").
Proof.
  unfold fourDigitYear, Date.toISOString, Date.yearText, isoText.
  intros [H0 H1]. set (f := Date.utc t) in *.
  rewrite (proj2 (Z.leb_le _ _) H0), (proj2 (Z.leb_le _ _) H1). cbn [andb].
  rewrite (pad_append 4), (pad_append 2 (Date.month f)),
    (pad_append 2 (Date.day f)), (pad_append 2 (Date.hours f)),
    (pad_append 2 (Date.minutes f)), (pad_append 3).
  rewrite !append_assoc, !append_cons, !append_nil_l. done.
Qed.

Lemma replace_isoText f :
  Js.replaceColonDot (isoText f "") = stamp f.
Proof.
  unfold isoText, stamp.
  repeat (rewrite replace_pad;
          change (Js.replaceColonDot (String ?c ?s))
            with (String (if Ascii.eqb c ":" || Ascii.eqb c "." then "-"%char else c)
                    (Js.replaceColonDot s)); cbn [Ascii.eqb Bool.eqb orb andb]).
  try rewrite replace_pad. done.
Qed.

Lemma length_stamp f : String.length (stamp f) = 19%nat.
Proof.
  unfold stamp.
  repeat (rewrite length_pad; cbn [String.length]). try rewrite length_pad.
  done.
Qed.

(** With a year of four digits, the timestamp is the stamp of the
    fields. *)
Lemma timestamp_stamp t :
  fourDigitYear t → Recorder.timestamp t = stamp (Date.utc t).
Proof.
  intros H. unfold Recorder.timestamp, Js.slicePrefix.
  rewrite (toISOString_isoText t H).
  unfold Js.replaceColonDot at 1. rewrite mapChars_append.
  change (Js.mapChars _ (isoText ?f "")) with (Js.replaceColonDot (isoText f "")).
  rewrite replace_isoText. apply substring_append, length_stamp.
Qed.

(** Two clocks of four-digit years with the same timestamp are in the
    same second. *)
Lemma timestamp_same_second t1 t2 :
  fourDigitYear t1 → fourDigitYear t2 →
  Recorder.timestamp t1 = Recorder.timestamp t2 → t1 / 1000 = t2 / 1000.
Proof.
  intros Hy1 Hy2. rewrite (timestamp_stamp _ Hy1), (timestamp_stamp _ Hy2).
  destruct (utc_spec t1) as (Hm1 & Hd1 & Hh1 & Hi1 & Hs1 & <-).
  destruct (utc_spec t2) as (Hm2 & Hd2 & Hh2 & Hi2 & Hs2 & <-).
  unfold fourDigitYear in *. unfold stamp, epochSeconds. intros H.
  apply pad4_inj in H as [-> H]; [|lia ..]. apply string_tail_eq in H.
  apply pad2_inj in H as [-> H]; [|lia ..]. apply string_tail_eq in H.
  apply pad2_inj in H as [-> H]; [|lia ..]. apply string_tail_eq in H.
  apply pad2_inj in H as [-> H]; [|lia ..]. apply string_tail_eq in H.
  apply pad2_inj in H as [-> H]; [|lia ..]. apply string_tail_eq in H.
  apply pad2_inj in H as [-> _]; [|lia ..]. done.
Qed.

Lemma timestamp_distinct t1 t2 :
  fourDigitYear t1 → fourDigitYear t2 → 1000 ≤ Z.abs (t1 - t2) →
  Recorder.timestamp t1 ≠ Recorder.timestamp t2.
Proof.
  intros Hy1 Hy2 Hd H. apply (timestamp_same_second _ _ Hy1 Hy2) in H.
  Z.div_mod_to_equations. lia.
Qed.

(** * Output files *)

Lemma hasChar_pad width n acc :
  hasChar Path.sep (Date.pad width n acc) = hasChar Path.sep acc.
Proof.
  revert n acc. induction width as [|width IH]; intros n acc; [done|].
  simpl. rewrite IH. simpl. by rewrite digitChar_plain.
Qed.

Lemma hasChar_replace s :
  hasChar Path.sep (Js.replaceColonDot s) = hasChar Path.sep s.
Proof.
  induction s as [|c s IH]; [done|].
  unfold Js.replaceColonDot in *. simpl. rewrite IH. f_equal.
  destruct (Ascii.eqb c ":") eqn:E1; [by apply Ascii.eqb_eq in E1 as ->|].
  destruct (Ascii.eqb c ".") eqn:E2; [by apply Ascii.eqb_eq in E2 as ->|].
  done.
Qed.

Lemma hasChar_prefix c n s :
  hasChar c s = false → hasChar c (substring 0 n s) = false.
Proof.
  revert s. induction n as [|n IH]; intros s H.
  - by destruct s.
  - destruct s as [|d s]; [done|]. simpl in *.
    apply orb_false_elim in H as [-> H]. by rewrite IH.
Qed.

Lemma toISOString_plain t : hasChar Path.sep (Date.toISOString t) = false.
Proof.
  unfold Date.toISOString, Date.yearText.
  repeat (rewrite hasChar_append, ?hasChar_pad).
  destruct (_ && _); [by rewrite hasChar_pad|].
  rewrite hasChar_append, hasChar_pad. by destruct (_ <? _).
Qed.

(** The name of an output file is a file name, whatever the clock. *)
Lemma recording_name t :
  fileName ("recording-" +:+ Recorder.timestamp t +:+ ".mp4").
Proof.
  split.
  - rewrite append_cons. by repeat split.
  - rewrite !hasChar_append. unfold Recorder.timestamp, Js.slicePrefix.
    rewrite hasChar_prefix; [done|].
    by rewrite hasChar_replace, toISOString_plain.
Qed.

Lemma length_append a b :
  String.length (a +:+ b) = (String.length a + String.length b)%nat.
Proof.
  induction a as [|c a IH]; [done|]. rewrite append_cons. simpl. by rewrite IH.
Qed.

Lemma append_inj_r a b s : a +:+ s = b +:+ s → a = b.
Proof.
  revert b. induction a as [|c a IH]; intros [|d b] H; [done| | |].
  - apply (f_equal String.length) in H. rewrite !length_append in H.
    simpl in H. lia.
  - apply (f_equal String.length) in H. rewrite !length_append in H.
    simpl in H. lia.
  - rewrite !append_cons in H. injection H as -> H. by rewrite (IH b H).
Qed.

(** Names of clocks a second apart are distinct, and so are the paths,
    in whatever directories. *)
Lemma recording_paths_distinct t1 t2 d1 d2 :
  fourDigitYear t1 → fourDigitYear t2 → 1000 ≤ Z.abs (t1 - t2) →
  Path.join d1 ("recording-" +:+ Recorder.timestamp t1 +:+ ".mp4")
  ≠ Path.join d2 ("recording-" +:+ Recorder.timestamp t2 +:+ ".mp4").
Proof.
  intros H1 H2 Hd. apply join_distinct; [apply recording_name ..|].
  intros H. apply String.app_inj in H. apply append_inj_r in H.
  by apply (timestamp_distinct t1 t2 H1 H2 Hd).
Qed.

Lemma mkdirs_some ks f f' :
  mkdirs ks f = Some f' →
  (∀ k, k ∈ ks → f' !! k = Some Dir) ∧
  (∀ k, f !! k = Some Dir → f' !! k = Some Dir).
Proof.
  revert f. induction ks as [|k r IH]; intros f H; simpl in H.
  - injection H as <-. split; [|done]. intros k Hk. by inversion Hk.
  - destruct (f !! k) as [[a c|]|] eqn:E; [done| |].
    + destruct (IH _ H) as [Hin Hdir]. split; [|done].
      intros k' [->|Hk']%elem_of_cons; [by apply Hdir|by apply Hin].
    + destruct (IH _ H) as [Hin Hdir].
      assert (∀ k', f !! k' = Some Dir → f' !! k' = Some Dir) as Hkeep.
      { intros k' Hk'. apply Hdir. destruct (decide (k = k')) as [->|Hne];
          [by rewrite lookup_insert_eq|by rewrite lookup_insert_ne]. }
      split; [|done].
      intros k' [->|Hk']%elem_of_cons; [|by apply Hin].
      apply Hdir. by rewrite lookup_insert_eq.
Qed.

Lemma stat_putFile_dir w p f q :
  p ≠ "" → stat w p ≠ Some Dir → stat w q = Some Dir →
  stat (putFile p f w) q = Some Dir.
Proof.
  intros Hp Hd Hq.
  destruct (decide (Path.resolve (cwd w) p = Path.resolve (cwd w) q)) as [E|E];
    [|by rewrite stat_putFile_other].
  destruct Hd. unfold stat in *. destruct p; [done|]. destruct q; [done|].
  by rewrite E.
Qed.

Lemma stat_putFile_some w p f q :
  is_Some (stat w q) → is_Some (stat (putFile p f w) q).
Proof.
  unfold stat, putFile. simpl. destruct q; [done|].
  destruct (Path.resolve (cwd w) (String a q)); [done|].
  intros H. destruct (decide (Path.resolve (cwd w) p = s :: l)) as [->|E].
  - rewrite lookup_insert_eq. eauto.
  - by rewrite lookup_insert_ne.
Qed.

Section OutputFiles.

Variable host : Host.

Lemma getOutputDir_exists prefs w dir wa :
  Recorder.getOutputDir host prefs w = Ok dir wa →
  cwd wa = cwd w ∧ clock wa = clock w ∧ spawned wa = spawned w ∧
  is_Some (stat wa dir) ∧ (stat w dir = None → stat wa dir = Some Dir).
Proof.
  intros H. pose proof (launches_after_getOutputDir _ _ _ _ _ H)
    as (_ & _ & Hc & Ht & Hs).
  split; [done|]. split; [done|]. split; [done|].
  unfold Recorder.getOutputDir in H.
  set (d := Js.orElse _ _) in H.
  apply bind_inv_ok in H as (found & w1 & Hex & H).
  unfold existsSync, gets in Hex. injection Hex as <- <-.
  apply bind_inv_ok in H as ([] & w2 & Hmk & H).
  unfold ret in H. injection H as <- <-.
  case_bool_decide as Hfound; simpl in Hmk.
  - unfold ret in Hmk. injection Hmk as <-. split; [done|].
    intros Hn. rewrite Hn in Hfound. by destruct Hfound.
  - assert (stat w2 d = Some Dir) as Hd; [|rewrite Hd; eauto].
    unfold mkdirSyncRecursive in Hmk. destruct d as [|ch r] eqn:E; [done|].
    destruct (mkdirs _ _) as [f|] eqn:Em; [|done]. injection Hmk as <-.
    apply mkdirs_some in Em as [Hin _].
    unfold stat. simpl.
    destruct (Path.resolve (cwd w) (String ch r)) eqn:Er; [done|].
    apply Hin. by apply prefixes_self.
Qed.

(** What a start of the status view leaves: the recorder runs with the
    output file, named by the clock, in the output directory, and that
    directory exists. *)
Lemma start_output prefs w w' :
  Recorder.startRecording host prefs w = Ok tt w' →
  let dir := Js.orElse (Js.trim <$> Recorder.outputDir prefs)
                       (Path.join (homedir host) "Videos") in
  let name := "recording-" +:+ Recorder.timestamp (clock w) +:+ ".mp4" in
  lastOutput w' = Some (Path.join dir name) ∧
  Path.resolve (cwd w) (Path.join dir name) = Path.resolve (cwd w) dir ++ [name] ∧
  is_Some (stat w' dir) ∧
  (stat w dir = None → stat w' dir = Some Dir).
Proof.
  intros H dir name.
  destruct (start_trace host prefs w w' H)
    as (d & wa & args & header & child & ws & we
        & Hdir & Hlast & Hsp & Hon & -> & _ & _ & Hlog0 & Hpid0).
  pose proof (getOutputDir_inv _ _ _ _ _ Hdir) as [-> _]. fold dir in Hdir, Hlast.
  apply getOutputDir_exists in Hdir as (Hca & Hta & _ & Hsome & Hnew).
  rewrite Hta in Hlast. fold name in Hlast.
  apply spawn_inv in Hsp as (Hss & Hfs & Hcs & _ & _).
  apply onError_inv in Hon as (Hfe & Hce & Hse & _ & _).
  assert (∀ q, stat we q
               = stat (putFile (Recorder.LOG_FILE host) (File true header) wa) q)
    as Hwe.
  { intros q. rewrite (stat_frame _ _ _ Hfe Hce).
    by rewrite (stat_frame _ _ _ Hfs Hcs). }
  split; [|split; [|split]].
  - unfold lastOutput. simpl. by rewrite Hse, Hss.
  - apply resolve_join, recording_name.
  - apply stat_putFile_some. rewrite Hwe. by apply stat_putFile_some.
  - intros Hn. specialize (Hnew Hn).
    apply stat_putFile_dir; [apply joinAll_nonempty|done|].
    rewrite Hwe. apply stat_putFile_dir; [apply joinAll_nonempty|done|done].
Qed.

(** The toggle command: the same output file, in the directory of its
    preferences as it is written there. *)
Lemma toggle_start_output prefs w w' :
  Toggle.startRecording host prefs w = Ok tt w' →
  let dir := Js.orElse (Toggle.outputDir prefs)
                       (Path.join (homedir host) "Desktop") in
  let name := "recording-" +:+ Toggle.timestamp (clock w) +:+ ".mp4" in
  lastOutput w' = Some (Path.join dir name) ∧
  Path.resolve (cwd w) (Path.join dir name) = Path.resolve (cwd w) dir ++ [name].
Proof.
  intros H dir name.
  destruct (toggle_start_trace host prefs w w' H)
    as (wl & args & child & ws & _ & _ & _ & Hlast & Hs & ->).
  split.
  - unfold lastOutput. simpl. by rewrite Hs.
  - apply resolve_join, (recording_name (clock w)).
Qed.

End OutputFiles.

(** * The marker of a recorder that started *)

Lemma digit_value d :
  0 ≤ d < 10 →
  Shell.isDigit (Js.digitChar d) = true ∧
  Js.is_ws (Js.digitChar d) = false ∧
  (N_of_ascii (Js.digitChar d) - 48)%N = Z.to_N d.
Proof.
  intros H.
  destruct (digit_cases _ H) as [->|[->|[->|[->|[->|[->|[->|[->|[->| ->]]]]]]]]];
    by repeat split.
Qed.

Lemma digitsValue_digit n acc v :
  0 ≤ n →
  Shell.digitsValue (String (Js.digitChar (n mod 10)) acc) v
  = Shell.digitsValue acc (10 * v + Z.to_N (n mod 10))%N.
Proof.
  intros Hn. assert (0 ≤ n mod 10 < 10) as H by (apply Z.mod_pos_bound; lia).
  destruct (digit_value _ H) as (Hd & _ & Hv). simpl. by rewrite Hd, Hv.
Qed.

(** With fuel for every digit, [decimalGo] writes the number before
    [acc]: reading the result is reading [acc] from the number on. *)
Lemma digitsValue_decimalGo fuel n acc :
  0 ≤ n < 10 ^ Z.of_nat fuel →
  ∃ d, ∀ v,
    Shell.digitsValue (Js.decimalGo fuel n acc) v
    = Shell.digitsValue acc (v * 10 ^ d + Z.to_N n)%N.
Proof.
  revert n acc. induction fuel as [|fuel IH]; intros n acc Hn.
  - exists 0%N. intros v. simpl in *. f_equal. assert (n = 0) as -> by lia.
    simpl. lia.
  - simpl. rewrite Nat2Z.inj_succ, Z.pow_succ_r in Hn by lia.
    destruct (n / 10 =? 0) eqn:E.
    + exists 1%N. intros v. rewrite digitsValue_digit by lia. f_equal.
      apply Z.eqb_eq in E. rewrite Z.mod_small by (Z.div_mod_to_equations; lia).
      lia.
    + destruct (IH (n / 10) (String (Js.digitChar (n mod 10)) acc))
        as [d Hd]; [Z.div_mod_to_equations; lia|].
      exists (N.succ d). intros v. rewrite Hd, digitsValue_digit by lia.
      f_equal. rewrite N.pow_succ_r'.
      assert (Z.to_N n = (10 * Z.to_N (n / 10) + Z.to_N (n mod 10))%N) as ->
        by (Z.div_mod_to_equations; lia).
      lia.
Qed.

Lemma decimalGo_nonempty fuel n acc :
  acc ≠ "" → Js.decimalGo fuel n acc ≠ "".
Proof.
  revert n acc. induction fuel as [|fuel IH]; intros n acc H; [done|].
  simpl. destruct (_ =? _); [done|]. by apply IH.
Qed.

Lemma decimal_fuel n :
  0 ≤ Z.of_N n < 10 ^ Z.of_nat (S (N.to_nat (N.log2 n))).
Proof.
  split; [lia|].
  replace (Z.of_nat (S (N.to_nat (N.log2 n)))) with (Z.of_N (N.succ (N.log2 n)))
    by lia.
  apply Z.lt_le_trans with (2 ^ Z.of_N (N.succ (N.log2 n))).
  - change 2 with (Z.of_N 2). rewrite <- N2Z.inj_pow. apply N2Z.inj_lt.
    destruct (decide (n = 0%N)) as [->|Hn]; [done|].
    apply N.log2_spec. lia.
  - apply Z.pow_le_mono_l. lia.
Qed.

(** [kill] reads the text of a process id as that id. *)
Lemma pidOfText_decimal n : Shell.pidOfText (Js.decimal n) = Some n.
Proof.
  unfold Shell.pidOfText, Js.decimal.
  destruct (digitsValue_decimalGo _ _ "" (decimal_fuel n)) as [d Hd].
  destruct (Js.decimalGo _ _ _) eqn:E.
  - exfalso. revert E. simpl. destruct (_ =? _); [done|].
    by apply decimalGo_nonempty.
  - rewrite Hd. simpl. f_equal. lia.
Qed.

Lemma trim_noSpace s : noSpace s = true → Js.trim s = s.
Proof.
  unfold Js.trim. intros H.
  assert (Js.trimStart s = s) as ->.
  { destruct s as [|c s]; [done|]. simpl in *.
    apply andb_prop in H as [H _]. by destruct (Js.is_ws c). }
  induction s as [|c s IH]; [done|]. simpl in *.
  apply andb_prop in H as [Hc Hs]. rewrite (IH Hs).
  destruct s; [|done]. by destruct (Js.is_ws c).
Qed.

Lemma decimalGo_noSpace fuel n acc :
  noSpace acc = true → noSpace (Js.decimalGo fuel n acc) = true.
Proof.
  revert n acc. induction fuel as [|fuel IH]; intros n acc H; [done|].
  assert (noSpace (String (Js.digitChar (n mod 10)) acc) = true) as H'.
  { simpl. rewrite H.
    assert (0 ≤ n mod 10 < 10) as Hd by (apply Z.mod_pos_bound; lia).
    destruct (digit_value _ Hd) as (_ & -> & _). done. }
  simpl. destruct (_ =? _); [done|]. by apply IH.
Qed.

Lemma trim_decimal n : Js.trim (Js.decimal n) = Js.decimal n.
Proof. apply trim_noSpace. by apply decimalGo_noSpace. Qed.

Lemma spawn_launched cmd args w child ws n rest :
  spawn cmd args w = Ok child ws → launches w = Launches n :: rest →
  childPid child = Some n ∧ n ∈ procs ws.
Proof.
  unfold spawn. intros H Hl. rewrite Hl in H. injection H as <- <-.
  split; [done|]. simpl. set_solver.
Qed.

(** * The example machines, evaluated *)

Lemma orphaned_marker :
  stat Example.orphaned (Recorder.PID_FILE Example.host)
  = Some (File true "4242").
Proof. vm_compute. reflexivity. Qed.

Lemma orphaned_dead : ¬ alive Example.orphaned (Js.trim "4242").
Proof. intros (n & _ & Hn). vm_compute in Hn. set_solver. Qed.

Lemma recording_marker :
  stat Example.recording (Recorder.PID_FILE Example.host)
  = Some (File true "4242").
Proof. vm_compute. reflexivity. Qed.

Lemma recording_alive : alive Example.recording (Js.trim "4242").
Proof.
  exists 4242%N. split; [reflexivity|].
  unfold Example.recording. simpl. set_solver.
Qed.

Lemma idle_no_marker :
  stat Example.idle (Recorder.PID_FILE Example.host) = None.
Proof. vm_compute. reflexivity. Qed.

Lemma noRecorder_start :
  Recorder.startRecording Example.host Example.prefs Example.noRecorder
  = Ok tt (Example.after (Recorder.startRecording Example.host Example.prefs)
             Example.noRecorder).
Proof. vm_compute. reflexivity. Qed.

Lemma idle_start :
  Recorder.startRecording Example.host Example.prefs Example.idle
  = Ok tt Example.started.
Proof. vm_compute. reflexivity. Qed.

Lemma started_marker :
  stat Example.started (Recorder.PID_FILE Example.host) = Some (File true "4242").
Proof. vm_compute. reflexivity. Qed.

Lemma started_alive : alive Example.started (Js.trim "4242").
Proof. exists 4242%N. split; [reflexivity|]. vm_compute. reflexivity. Qed.

Lemma startedGone_marker :
  stat Example.startedGone (Recorder.PID_FILE Example.host)
  = stat Example.started (Recorder.PID_FILE Example.host).
Proof. reflexivity. Qed.

Lemma later_start :
  Recorder.startRecording Example.host Example.prefs
    (setClock (clock Example.idle + 1000) Example.idle)
  = Ok tt Example.startedLater.
Proof. vm_compute. reflexivity. Qed.

Lemma idle_year : fourDigitYear (clock Example.idle).
Proof. unfold fourDigitYear. vm_compute. by split. Qed.

Lemma later_year :
  fourDigitYear (clock (setClock (clock Example.idle + 1000) Example.idle)).
Proof. unfold fourDigitYear. vm_compute. by split. Qed.

Lemma later_second :
  1000 ≤ Z.abs (clock Example.idle
                - clock (setClock (clock Example.idle + 1000) Example.idle)).
Proof. vm_compute. discriminate. Qed.

(** * The properties of the specification *)






(** C3.  After a [startRecording] that returned, [stopRecording] returns
    normally and the marker file is absent, whatever became of the process
    in between: the state [w'] in which the stop runs need only hold the
    marker the start wrote, its processes are arbitrary (the recorder may
    be alive, or gone so that the signal fails).  Both commands. *)
Theorem start_then_stop_clears_marker (host : Host) :
  (∀ prefs w w1 w',
     Recorder.startRecording host prefs w = Ok tt w1 →
     stat w' (Recorder.PID_FILE host) = stat w1 (Recorder.PID_FILE host) →
     ∃ w2, Recorder.stopRecording host w' = Ok tt w2 ∧
           stat w2 (Recorder.PID_FILE host) = None) ∧
  (∀ prefs w w1 w',
     Toggle.startRecording host prefs w = Ok tt w1 →
     stat w' (Toggle.PID_FILE host) = stat w1 (Toggle.PID_FILE host) →
     ∃ w2, Toggle.stopRecording host w' = Ok tt w2 ∧
           stat w2 (Toggle.PID_FILE host) = None).
Proof.
  split; intros prefs w w1 w' Hs Hm.
  - apply start_writes_marker in Hs as [text Hs]. rewrite Hs in Hm.
    destruct (stop_present host w' text Hm) as (w2 & Hstop & Hf & Hc).
    eexists. split; [exact Hstop|].
    apply (stat_without w2 _ true text). by rewrite (stat_frame _ _ _ Hf Hc).
  - apply toggle_start_writes_marker in Hs as [text Hs]. rewrite Hs in Hm.
    destruct (toggle_stop_present host w' text Hm) as (w2 & Hstop & Hf & Hc).
    eexists. split; [exact Hstop|].
    apply (stat_without w2 _ true text). by rewrite (stat_frame _ _ _ Hf Hc).
Qed.

Lemma start_then_stop_clears_marker_witness :
  (∃ w2, Recorder.stopRecording Example.host Example.started = Ok tt w2 ∧
         stat w2 (Recorder.PID_FILE Example.host) = None) ∧
  (∃ w2, Recorder.stopRecording Example.host Example.startedGone = Ok tt w2 ∧
         stat w2 (Recorder.PID_FILE Example.host) = None).
Proof.
  split.
  - exact (proj1 (start_then_stop_clears_marker Example.host)
             Example.prefs Example.idle Example.started Example.started
             idle_start eq_refl).
  - exact (proj1 (start_then_stop_clears_marker Example.host)
             Example.prefs Example.idle Example.started Example.startedGone
             idle_start startedGone_marker).
Defined.





(** C6, as the code has it.  The lines that count are those of the log
    text with the white space at its two ends stripped: when that text
    has more than 25 lines, [readLogTail] returns exactly its last 25
    lines, in their order, joined by newlines. *)
Theorem log_tail_last_lines (host : Host) (w : World) (c : string) :
  stat w (Recorder.LOG_FILE host) = Some (File true c) →
  (25 < length (Js.split Shell.nl (Js.trim c)))%nat →
  ∃ s,
    Recorder.readLogTail host w = Ok s w ∧
    s = Js.join (String Shell.nl "")
          (Js.sliceLast 25 (Js.split Shell.nl (Js.trim c))) ∧
    Js.split Shell.nl s = Js.sliceLast 25 (Js.split Shell.nl (Js.trim c)) ∧
    length (Js.split Shell.nl s) = 25%nat ∧
    ∀ i, (i < 25)%nat →
      Js.split Shell.nl s !! i
      = Js.split Shell.nl (Js.trim c)
          !! (length (Js.split Shell.nl (Js.trim c)) - 25 + i)%nat.
Proof.
  intros H Hlen. rewrite (readLogTail_text _ _ _ H).
  destruct (Js.trim c) as [|ch r] eqn:E; [simpl in Hlen; lia|].
  set (ls := Js.split Shell.nl (String ch r)) in *.
  assert (Js.split Shell.nl (Js.join (String Shell.nl "") (Js.sliceLast 25 ls))
          = Js.sliceLast 25 ls) as Hs.
  { apply split_join.
    - intros Hnil. apply (f_equal length) in Hnil.
      rewrite sliceLast_length in Hnil by lia. done.
    - unfold Js.sliceLast. apply Forall_drop, split_pieces_plain. }
  eexists. split; [reflexivity|]. split; [reflexivity|]. rewrite Hs.
  split; [done|]. split; [apply sliceLast_length; lia|].
  intros i _. apply sliceLast_lookup.
Qed.

Lemma log_tail_last_lines_witness :
  ∃ s,
    Recorder.readLogTail Example.host
      (Example.withLog (File true (Example.lines 40 "frame")))
    = Ok s (Example.withLog (File true (Example.lines 40 "frame"))) ∧
    s = Js.join (String Shell.nl "")
          (Js.sliceLast 25
             (Js.split Shell.nl (Js.trim (Example.lines 40 "frame")))) ∧
    Js.split Shell.nl s
    = Js.sliceLast 25
        (Js.split Shell.nl (Js.trim (Example.lines 40 "frame"))) ∧
    length (Js.split Shell.nl s) = 25%nat ∧
    ∀ i, (i < 25)%nat →
      Js.split Shell.nl s !! i
      = Js.split Shell.nl (Js.trim (Example.lines 40 "frame"))
          !! (length (Js.split Shell.nl (Js.trim (Example.lines 40 "frame")))
              - 25 + i)%nat.
Proof.
  refine (log_tail_last_lines Example.host
            (Example.withLog (File true (Example.lines 40 "frame")))
            (Example.lines 40 "frame") _ _).
  - vm_compute. reflexivity.
  - vm_compute. lia.
Defined.

(** C6 as stated fails: a log of 26 lines followed by three blank lines
    has 29 lines; its last 25 lines are 22 lines of text and the three
    blank ones, and [readLogTail] returns 25 lines of text. *)
Lemma log_tail_skips_blank_end :
  let content := Example.lines 26 "frame" +:+ Example.lines 3 "" in
  let w := Example.withLog (File true content) in
  length (Shell.textLines content) = 29%nat ∧
  lastLines 25 content = replicate 22 "frame" ++ [""; ""; ""] ∧
  ∃ s, Recorder.readLogTail Example.host w = Ok s w ∧
       Js.split Shell.nl s = replicate 25 "frame".
Proof.
  split; [vm_compute; reflexivity|]. split; [vm_compute; reflexivity|].
  eexists. split; vm_compute; reflexivity.
Qed.

(** C7.  [readLogTail] never throws, in any state of the machine, and
    changes nothing: without a log file it returns the text that no log
    exists yet, for a log that is empty (or holds white space only) the
    text that the log is empty, and for a log it cannot read (no access,
    or a directory in its place) the text that the log could not be
    read. *)
Theorem log_tail_never_raises (host : Host) (w : World) :
  (∃ s, Recorder.readLogTail host w = Ok s w) ∧
  (stat w (Recorder.LOG_FILE host) = None →
     Recorder.readLogTail host w
     = Ok "_No log yet. Start a recording to see ffmpeg output here._" w) ∧
  (∀ c, stat w (Recorder.LOG_FILE host) = Some (File true c) →
     Js.trim c = "" →
     Recorder.readLogTail host w = Ok "_Log is empty_" w) ∧
  (∀ c, stat w (Recorder.LOG_FILE host) = Some (File false c) →
     Recorder.readLogTail host w = Ok "_Could not read log_" w) ∧
  (stat w (Recorder.LOG_FILE host) = Some Dir →
     Recorder.readLogTail host w = Ok "_Could not read log_" w).
Proof.
  split; [apply readLogTail_total|].
  split; [apply readLogTail_absent|].
  split; [|split].
  - intros c H Ht. rewrite (readLogTail_text _ _ _ H). by rewrite Ht.
  - intros c H. by apply (readLogTail_closed _ _ _ H).
  - intros H. by apply (readLogTail_closed _ _ _ H).
Qed.

Lemma log_tail_never_raises_witness :
  Recorder.readLogTail Example.host Example.idle
  = Ok "_No log yet. Start a recording to see ffmpeg output here._" Example.idle ∧
  Recorder.readLogTail Example.host (Example.withLog (File true "  "))
  = Ok "_Log is empty_" (Example.withLog (File true "  ")) ∧
  Recorder.readLogTail Example.host (Example.withLog (File false "frame=1"))
  = Ok "_Could not read log_" (Example.withLog (File false "frame=1")) ∧
  Recorder.readLogTail Example.host (Example.withLog Dir)
  = Ok "_Could not read log_" (Example.withLog Dir).
Proof.
  split; [|split; [|split]].
  - refine (proj1 (proj2 (log_tail_never_raises Example.host Example.idle)) _).
    vm_compute. reflexivity.
  - refine (proj1 (proj2 (proj2 (log_tail_never_raises Example.host
                                   (Example.withLog (File true "  ")))))
              "  " _ _); vm_compute; reflexivity.
  - refine (proj1 (proj2 (proj2 (proj2 (log_tail_never_raises Example.host
                                   (Example.withLog (File false "frame=1"))))))
              "frame=1" _); vm_compute; reflexivity.
  - refine (proj2 (proj2 (proj2 (proj2 (log_tail_never_raises Example.host
                                   (Example.withLog Dir))))) _).
    vm_compute. reflexivity.
Defined.






(** The probe reads the second field of the dimensions line. *)
Example detectResolution_reads_dimensions :
  Recorder.detectResolution ":1"
    (Example.display
       ("screen #0:" +:+ String Shell.nl
        "  dimensions:    2560x1440 pixels (677x381 millimeters)" +:+ String Shell.nl
        "  resolution:    96x96 dots per inch"))
  = Ok "2560x1440"
      (Example.display
         ("screen #0:" +:+ String Shell.nl
          "  dimensions:    2560x1440 pixels (677x381 millimeters)" +:+ String Shell.nl
          "  resolution:    96x96 dots per inch")).
Proof. vm_compute. reflexivity. Qed.

(** C10.  When the configured output directory is missing, empty or white
    space only, [getOutputDir] takes the Videos directory of the home
    directory: it returns it unchanged when it exists, creates it with
    every missing ancestor when it does not (no ancestor being a regular
    file), and never returns another path. *)
Theorem blank_output_dir_falls_back (host : Host)
    (prefs : Recorder.Preferences) (w : World) :
  unset (Recorder.outputDir prefs) →
  let dir := Path.join (homedir host) "Videos" in
  (is_Some (stat w dir) → Recorder.getOutputDir host prefs w = Ok dir w) ∧
  (stat w dir = None →
   (∀ k a c, k ∈ prefixes (Path.resolve (cwd w) dir) →
             fs w !! k ≠ Some (File a c)) →
   ∃ w', Recorder.getOutputDir host prefs w = Ok dir w' ∧
         stat w' dir = Some Dir ∧
         (∀ k, k ∈ prefixes (Path.resolve (cwd w) dir) → fs w' !! k = Some Dir) ∧
         (∀ k, k ∉ prefixes (Path.resolve (cwd w) dir) → fs w' !! k = fs w !! k)) ∧
  (∀ d w', Recorder.getOutputDir host prefs w = Ok d w' → d = dir).
Proof.
  intros Hu dir.
  pose proof (unset_falls_back host prefs Hu) as Hd. fold dir in Hd.
  split; [|split].
  - intros [n Hn]. rewrite <- Hd in *. by apply (getOutputDir_found host prefs w n).
  - intros Hn Hf. rewrite <- Hd in *. by apply getOutputDir_creates.
  - intros d w' H. apply getOutputDir_inv in H as [-> _]. done.
Qed.

Lemma blank_output_dir_falls_back_witness :
  ∃ w', Recorder.getOutputDir Example.host
          {| Recorder.outputDir := Some "   ";
             Recorder.audioDevice := None;
             Recorder.fps := None |} Example.idle
        = Ok "/home/u/Videos" w' ∧
        stat w' "/home/u/Videos" = Some Dir ∧
        (∀ k, k ∈ prefixes (Path.resolve (cwd Example.idle) "/home/u/Videos") →
              fs w' !! k = Some Dir) ∧
        (∀ k, k ∉ prefixes (Path.resolve (cwd Example.idle) "/home/u/Videos") →
              fs w' !! k = fs Example.idle !! k).
Proof.
  refine (proj1 (proj2 (blank_output_dir_falls_back Example.host
            {| Recorder.outputDir := Some "   ";
               Recorder.audioDevice := None;
               Recorder.fps := None |} Example.idle eq_refl)) _ _).
  - vm_compute. reflexivity.
  - intros k a c Hk.
    change (prefixes (Path.resolve (cwd Example.idle)
              (Path.join (homedir Example.host) "Videos")))
      with [["home"]; ["home"; "u"]; ["home"; "u"; "Videos"]] in Hk.
    repeat (apply elem_of_cons in Hk as [->|Hk]); [done|done|done|].
    by inversion Hk.
Defined.

(** X1.  After a start that launched the recorder as process [n], the
    status check reports active with that process id for as long as the process
    is alive: in every state [w'] that holds the marker the start wrote
    and in which [kill] reaches [n].  The state the start leaves is one. *)
Theorem started_status_active (host : Host) (prefs : Recorder.Preferences)
    (w w1 : World) (n : N) (rest : list launch) :
  launches w = Launches n :: rest →
  Recorder.startRecording host prefs w = Ok tt w1 →
  n ∈ procs w1 ∧
  ∀ w', stat w' (Recorder.PID_FILE host) = stat w1 (Recorder.PID_FILE host) →
        n ∈ procs w' →
        Recorder.checkIsRecording host w'
        = Ok (Recorder.Status true (Some (Js.decimal n))) w'.
Proof.
  intros Hl Hstart.
  destruct (start_trace host prefs w w1 Hstart)
    as (dir & wa & args & header & child & ws & we
        & Hdir & _ & Hsp & Hon & Hw1 & _ & Hpid & _ & _).
  apply launches_after_getOutputDir in Hdir as (Hla & _).
  destruct (spawn_launched _ _ _ _ _ n rest Hsp) as [Hchild Hn];
    [by rewrite <- Hl, <- Hla|].
  rewrite Hchild in Hpid. simpl in Hpid.
  split.
  - rewrite Hw1. simpl. unfold onError, modify in Hon. by injection Hon as <-.
  - intros w' Hm Hn'. rewrite Hpid in Hm.
    rewrite <- (trim_decimal n).
    apply (check_alive host w' _ Hm).
    exists n. split; [|done]. rewrite trim_decimal. apply pidOfText_decimal.
Qed.

Lemma started_status_active_witness :
  4242%N ∈ procs Example.started ∧
  Recorder.checkIsRecording Example.host Example.started
  = Ok (Recorder.Status true (Some (Js.decimal 4242))) Example.started.
Proof.
  pose proof (started_status_active Example.host Example.prefs Example.idle
                Example.started 4242 [] eq_refl idle_start) as [H1 H2].
  split; [exact H1|]. exact (H2 Example.started eq_refl H1).
Defined.

(** The life of a recording on the example machine: idle, started as
    process 4242, reported active, stopped, idle again. *)
Example lifecycle :
  let check := Recorder.checkIsRecording Example.host in
  let start := Recorder.startRecording Example.host Example.prefs in
  let stop := Recorder.stopRecording Example.host in
  let marker w := stat w (Recorder.PID_FILE Example.host) in
  check Example.idle = Ok (Recorder.Status false None) Example.idle ∧
  start Example.idle = Ok tt Example.started ∧
  marker Example.started = Some (File true "4242") ∧
  check Example.started
  = Ok (Recorder.Status true (Some "4242")) Example.started ∧
  marker (Example.after stop Example.started) = None ∧
  check (Example.after stop Example.started)
  = Ok (Recorder.Status false None) (Example.after stop Example.started).
Proof.
  intros check start stop marker.
  split; [apply check_absent, idle_no_marker|].
  split; [exact idle_start|].
  split; [exact started_marker|].
  split; [exact (check_alive Example.host Example.started "4242"
                   started_marker started_alive)|].
  destruct (stop_present Example.host Example.started "4242" started_marker)
    as (w1 & Hs & Hf & Hc).
  assert (marker (Example.after stop Example.started) = None) as Hgone.
  { unfold marker, Example.after, stop. rewrite Hs.
    apply (stat_without w1 _ true "4242").
    rewrite <- started_marker. by apply stat_frame. }
  split; [exact Hgone|]. by apply check_absent.
Qed.

(** * Further properties of the code *)

(** ** The log tail *)

Lemma join_split sep s : Js.join (String sep "") (Js.split sep s) = s.
Proof.
  induction s as [|c s IH]; [done|]. simpl.
  destruct (split_cons sep s) as (h & t & E). rewrite E in *.
  destruct (Ascii.eqb c sep) eqn:Ec.
  - apply Ascii.eqb_eq in Ec as ->. rewrite join_cons, IH. done.
  - destruct t as [|y t]; simpl in *; [by rewrite IH|].
    rewrite <- IH. by rewrite append_cons.
Qed.

Lemma sliceLast_all {A} n (l : list A) :
  (length l ≤ n)%nat → Js.sliceLast n l = l.
Proof.
  intros H. unfold Js.sliceLast.
  replace (length l - n)%nat with 0%nat by lia. done.
Qed.

Lemma sliceLast_bound {A} n (l : list A) : (length (Js.sliceLast n l) ≤ n)%nat.
Proof. unfold Js.sliceLast. rewrite length_drop. lia. Qed.

(** X2.  A log of at most 25 lines is shown whole: when the log text,
    with the white space at its ends stripped, is not empty and has at
    most 25 lines, [readLogTail] returns that stripped text itself. *)
Theorem log_tail_short (host : Host) (w : World) (c : string) :
  stat w (Recorder.LOG_FILE host) = Some (File true c) →
  Js.trim c ≠ "" →
  (length (Js.split Shell.nl (Js.trim c)) ≤ 25)%nat →
  Recorder.readLogTail host w = Ok (Js.trim c) w.
Proof.
  intros H Hne Hlen. rewrite (readLogTail_text _ _ _ H).
  destruct (Js.trim c) as [|ch r] eqn:E; [done|].
  by rewrite sliceLast_all, join_split.
Qed.

Lemma log_tail_short_witness :
  Recorder.readLogTail Example.host
    (Example.withLog (File true (Example.lines 3 "frame=  1 fps=0.0")))
  = Ok (Js.trim (Example.lines 3 "frame=  1 fps=0.0"))
       (Example.withLog (File true (Example.lines 3 "frame=  1 fps=0.0"))).
Proof.
  refine (log_tail_short Example.host _ (Example.lines 3 "frame=  1 fps=0.0")
            _ _ _).
  - vm_compute. reflexivity.
  - vm_compute. discriminate.
  - vm_compute. lia.
Defined.

(** X3.  Whatever the machine holds, [readLogTail] returns a text of at
    most 25 lines, and leaves the machine as it was. *)
Theorem log_tail_at_most_25 (host : Host) (w : World) :
  ∃ s, Recorder.readLogTail host w = Ok s w ∧
       (length (Js.split Shell.nl s) ≤ 25)%nat.
Proof.
  destruct (stat w (Recorder.LOG_FILE host)) as [[[] c|]|] eqn:E.
  - rewrite (readLogTail_text _ _ _ E).
    destruct (Js.trim c) as [|ch r] eqn:Et; [eexists; split; [done|simpl; lia]|].
    eexists. split; [done|].
    destruct (decide (length (Js.split Shell.nl (String ch r)) ≤ 25)%nat) as [Hl|Hl].
    + by rewrite sliceLast_all, join_split.
    + rewrite split_join.
      * apply sliceLast_bound.
      * intros Hnil. apply (f_equal length) in Hnil.
        rewrite sliceLast_length in Hnil by lia. done.
      * unfold Js.sliceLast. apply Forall_drop, split_pieces_plain.
  - rewrite (readLogTail_closed _ _ _ E); [|done].
    eexists. split; [done|]. vm_compute. lia.
  - rewrite (readLogTail_closed _ _ _ E); [|done].
    eexists. split; [done|]. vm_compute. lia.
  - rewrite (readLogTail_absent _ _ E).
    eexists. split; [done|]. vm_compute. lia.
Qed.

(** ** The status check leaves the processes alone *)


(** X5.  The two status checks agree: [isRecording] of the toggle command
    returns the active flag of [checkIsRecording], leaves the same machine,
    and throws the same exception when that one throws. *)
Theorem isRecording_is_check (host : Host) (w : World) :
  Toggle.isRecording host w
  = match Recorder.checkIsRecording host w with
    | Ok s w' => Ok (Recorder.active s) w'
    | Throw e w' => Throw e w'
    end.
Proof.
  unfold Toggle.isRecording, Recorder.checkIsRecording, bind, existsSync, gets,
    readFileSync, tryCatch, unlinkSync, ret.
  change (Toggle.PID_FILE host) with (Recorder.PID_FILE host).
  destruct (bool_decide _); simpl; [|done].
  destruct (stat w (Recorder.PID_FILE host)) as [[[] c|]|] eqn:E; simpl; try done.
  destruct (Shell.signal w (Js.trim c)); simpl; [done|].
  rewrite E. done.
Qed.

(** ** Stopping: what becomes of the process *)

Lemma stop_run host w text :
  stat w (Recorder.PID_FILE host) = Some (File true text) →
  Recorder.stopRecording host w
  = Ok tt
      (without (Recorder.PID_FILE host)
         match Shell.signal w (Js.trim text) with
         | Some n =>
             setClock (clock w + 1000)
               (if decide (n ∈ deaf w) then w else setProcs (procs w ∖ {[n]}) w)
         | None => w
         end).
Proof.
  intros H. unfold Recorder.stopRecording.
  rewrite (bind_ok _ _ _ _ _ (existsSync_found _ _ _ H)). cbn [negb].
  assert (readFileSync (Recorder.PID_FILE host) w = Ok text w) as Hr
    by (unfold readFileSync; by rewrite H).
  rewrite (bind_ok _ _ _ _ _ Hr).
  set (w1 := match Shell.signal w (Js.trim text) with
             | Some n =>
                 setClock (clock w + 1000)
                   (if decide (n ∈ deaf w) then w
                    else setProcs (procs w ∖ {[n]}) w)
             | None => w
             end).
  assert (tryCatch
            (execSync (KillInt (Js.trim text)) ;; execSync Sleep1 ;; ret tt)
            (fun _ => ret tt) w = Ok tt w1) as Ht.
  { unfold tryCatch, bind, ret, w1. simpl.
    destruct (Shell.signal w (Js.trim text)); [|done].
    by destruct (decide _). }
  rewrite (bind_ok _ _ _ _ _ Ht).
  assert (stat w1 (Recorder.PID_FILE host) = Some (File true text)) as H1.
  { rewrite <- H. apply stat_frame; unfold w1;
      destruct (Shell.signal _ _); try done; by destruct (decide _). }
  rewrite (bind_ok _ _ _ _ _ (existsSync_found _ _ _ H1)).
  by rewrite (unlinkSync_file _ _ _ _ H1).
Qed.



(** X7.  Stopping twice is stopping once: from the state a
    [stopRecording] of the status view returned in, another one returns
    at once and changes nothing. *)
Theorem stop_twice (host : Host) (w w2 : World) :
  Recorder.stopRecording host w = Ok tt w2 →
  stat w2 (Recorder.PID_FILE host) = None ∧
  Recorder.stopRecording host w2 = Ok tt w2.
Proof.
  intros H.
  assert (stat w2 (Recorder.PID_FILE host) = None) as Hgone;
    [|split; [done|by apply stop_absent]].
  destruct (stat w (Recorder.PID_FILE host)) as [[[] c|]|] eqn:E.
  - destruct (stop_present host w c E) as (w1 & Hs & Hf & Hc).
    rewrite Hs in H. injection H as <-.
    apply (stat_without w1 _ true c). by rewrite (stat_frame _ _ _ Hf Hc).
  - exfalso. revert H. unfold Recorder.stopRecording.
    rewrite (bind_ok _ _ _ _ _ (existsSync_found _ _ _ E)). cbn [negb].
    unfold bind, readFileSync. by rewrite E.
  - exfalso. revert H. unfold Recorder.stopRecording.
    rewrite (bind_ok _ _ _ _ _ (existsSync_found _ _ _ E)). cbn [negb].
    unfold bind, readFileSync. by rewrite E.
  - rewrite (stop_absent host w E) in H. by injection H as <-.
Qed.

Lemma stop_twice_witness :
  stat (Example.after (Recorder.stopRecording Example.host) Example.recording)
       (Recorder.PID_FILE Example.host) = None ∧
  Recorder.stopRecording Example.host
    (Example.after (Recorder.stopRecording Example.host) Example.recording)
  = Ok tt (Example.after (Recorder.stopRecording Example.host) Example.recording).
Proof.
  refine (stop_twice Example.host Example.recording _ _).
  vm_compute. reflexivity.
Defined.

(** ** Starting: processes, marker and log *)

Lemma getOutputDir_procs host prefs w dir wa :
  Recorder.getOutputDir host prefs w = Ok dir wa →
  procs wa = procs w ∧ deaf wa = deaf w.
Proof.
  intros H. apply getOutputDir_inv in H as [_ [->|[f ->]]]; done.
Qed.

Lemma start_launched host prefs w w1 n rest :
  launches w = Launches n :: rest →
  Recorder.startRecording host prefs w = Ok tt w1 →
  procs w1 = {[n]} ∪ procs w ∧ deaf w1 = deaf w ∧
  stat w1 (Recorder.PID_FILE host) = Some (File true (Js.decimal n)).
Proof.
  intros Hl Hstart.
  destruct (start_trace host prefs w w1 Hstart)
    as (dir & wa & args & header & child & ws & we
        & Hdir & _ & Hsp & Hon & -> & _ & Hpid & _ & _).
  pose proof (launches_after_getOutputDir _ _ _ _ _ Hdir) as (Hla & _).
  apply getOutputDir_procs in Hdir as [Hpa Hda].
  unfold onError, modify in Hon. injection Hon as <-.
  unfold spawn in Hsp. simpl in Hsp. rewrite Hla, Hl in Hsp.
  injection Hsp as <- <-. simpl in *. by rewrite Hpa, Hda.
Qed.

(** X8.  [startRecording] does not look at the marker.  Started while a
    recorder runs, it leaves that recorder running, launches another one
    and overwrites the marker with the id of the new process; a
    [stopRecording] after it interrupts the new recorder only, and the
    earlier one runs on with no marker naming it. *)
Theorem second_start_orphans_first (host : Host) (prefs : Recorder.Preferences)
    (w w1 : World) (m n : N) (rest : list launch) :
  m ∈ procs w → m ≠ n →
  launches w = Launches n :: rest →
  Recorder.startRecording host prefs w = Ok tt w1 →
  m ∈ procs w1 ∧ n ∈ procs w1 ∧
  stat w1 (Recorder.PID_FILE host) = Some (File true (Js.decimal n)) ∧
  ∃ w2, Recorder.stopRecording host w1 = Ok tt w2 ∧
        m ∈ procs w2 ∧
        stat w2 (Recorder.PID_FILE host) = None.
Proof.
  intros Hm Hne Hl Hstart.
  destruct (start_launched host prefs w w1 n rest Hl Hstart) as (Hprocs & Hdeaf & Hpid).
  assert (m ∈ procs w1) as Hm1 by (rewrite Hprocs; by apply elem_of_union_r).
  assert (n ∈ procs w1) as Hn1
    by (rewrite Hprocs; by apply elem_of_union_l, elem_of_singleton).
  split; [done|]. split; [done|]. split; [done|].
  rewrite (stop_run host w1 _ Hpid). eexists. split; [reflexivity|].
  split.
  - unfold without, Shell.signal. simpl.
    rewrite trim_decimal, pidOfText_decimal, (decide_True _ _ Hn1).
    destruct (decide (n ∈ deaf w1)); simpl; [done|].
    apply elem_of_difference. split; [done|].
    by intros ?%elem_of_singleton.
  - apply (stat_without _ _ true (Js.decimal n)).
    rewrite <- Hpid. apply stat_frame;
      destruct (Shell.signal _ _); try done; by destruct (decide _).
Qed.

Lemma second_start_orphans_first_witness :
  4242%N ∈ procs (Example.after
                    (Recorder.startRecording Example.host Example.prefs)
                    (Example.machine (Example.withMarker "4242") {[ 4242%N ]}
                       [Launches 4300])) ∧
  4300%N ∈ procs (Example.after
                    (Recorder.startRecording Example.host Example.prefs)
                    (Example.machine (Example.withMarker "4242") {[ 4242%N ]}
                       [Launches 4300])) ∧
  stat (Example.after (Recorder.startRecording Example.host Example.prefs)
          (Example.machine (Example.withMarker "4242") {[ 4242%N ]}
             [Launches 4300]))
       (Recorder.PID_FILE Example.host)
  = Some (File true (Js.decimal 4300)) ∧
  ∃ w2, Recorder.stopRecording Example.host
          (Example.after (Recorder.startRecording Example.host Example.prefs)
             (Example.machine (Example.withMarker "4242") {[ 4242%N ]}
                [Launches 4300])) = Ok tt w2 ∧
        4242%N ∈ procs w2 ∧
        stat w2 (Recorder.PID_FILE Example.host) = None.
Proof.
  refine (second_start_orphans_first Example.host Example.prefs
            (Example.machine (Example.withMarker "4242") {[ 4242%N ]}
               [Launches 4300]) _ 4242 4300 [] _ _ eq_refl _).
  - vm_compute. reflexivity.
  - discriminate.
  - vm_compute. reflexivity.
Defined.

(** X9.  Every start begins the log anew: when [startRecording] has
    returned, the log file holds a header and nothing of what it held
    before, and the header names the command that was started, the
    display, and the output file that is the last argument of that
    command. *)
Theorem start_resets_log (host : Host) (prefs : Recorder.Preferences)
    (w w1 : World) :
  Recorder.startRecording host prefs w = Ok tt w1 →
  ∃ args out,
    spawned w1 = ("ffmpeg", args) :: spawned w ∧
    lastOutput w1 = Some out ∧
    stat w1 (Recorder.LOG_FILE host)
    = Some (File true
              ("CMD: ffmpeg " +:+ Js.join " " args
                 +:+ String Shell.nl "DISPLAY: " +:+ Recorder.detectDisplay host
                 +:+ String Shell.nl "OUTPUT: " +:+ out
                 +:+ String Shell.nl (String Shell.nl "--- FFMPEG OUTPUT ---")
                 +:+ String Shell.nl "")).
Proof.
  unfold Recorder.startRecording. intros H.
  apply bind_inv_ok in H as (dir & wa & Hdir & H). cbv beta zeta in H.
  apply bind_inv_ok in H as (t & w2 & Ht & H). cbv beta zeta in H.
  unfold Date.now, gets in Ht. injection Ht as <- <-.
  apply bind_inv_ok in H as (res & w3 & Hres & H). cbv beta zeta in H.
  apply detectResolution_inv in Hres as ->.
  apply bind_inv_ok in H as ([] & w4 & Hlog & H).
  apply writeFileSync_ok in Hlog as [-> Hlog].
  apply bind_inv_ok in H as (fd & w5 & Hfd & H).
  rewrite (openSync_append_existing _ _ _ Hlog) in Hfd. injection Hfd as <- <-.
  apply bind_inv_ok in H as (child & ws & Hsp & H).
  apply bind_inv_ok in H as ([] & we & Hon & H).
  apply bind_inv_ok in H as ([] & w7 & Hun & H).
  unfold unref, ret in Hun. injection Hun as <-.
  apply writeFileSync_ok in H as [-> _].
  apply launches_after_getOutputDir in Hdir as (_ & _ & _ & _ & Hsa).
  apply spawn_inv in Hsp as (Hss & Hfs & Hcs & _ & _).
  apply onError_inv in Hon as (Hfe & Hce & Hse & _ & _).
  eexists _, _. split; [|split].
  - simpl. rewrite Hse, Hss. simpl. rewrite Hsa. reflexivity.
  - unfold lastOutput. simpl. rewrite Hse, Hss. reflexivity.
  - rewrite stat_putFile_other by apply marker_not_log.
    rewrite (stat_frame _ _ _ Hfe Hce), (stat_frame _ _ _ Hfs Hcs).
    exact Hlog.
Qed.

Lemma start_resets_log_witness :
  ∃ args out,
    spawned (Example.after (Recorder.startRecording Example.host Example.prefs)
               (Example.withLog (File true "frame=  900 fps= 30")))
    = ("ffmpeg", args)
      :: spawned (Example.withLog (File true "frame=  900 fps= 30")) ∧
    lastOutput (Example.after (Recorder.startRecording Example.host Example.prefs)
                  (Example.withLog (File true "frame=  900 fps= 30")))
    = Some out ∧
    stat (Example.after (Recorder.startRecording Example.host Example.prefs)
            (Example.withLog (File true "frame=  900 fps= 30")))
         (Recorder.LOG_FILE Example.host)
    = Some (File true
              ("CMD: ffmpeg " +:+ Js.join " " args
                 +:+ String Shell.nl "DISPLAY: "
                 +:+ Recorder.detectDisplay Example.host
                 +:+ String Shell.nl "OUTPUT: " +:+ out
                 +:+ String Shell.nl (String Shell.nl "--- FFMPEG OUTPUT ---")
                 +:+ String Shell.nl "")).
Proof.
  refine (start_resets_log Example.host Example.prefs
            (Example.withLog (File true "frame=  900 fps= 30")) _ _).
  vm_compute. reflexivity.
Defined.

(** ** The parameters of the recorder *)

Lemma trimStart_headOk s : headOk (Js.trimStart s).
Proof.
  induction s as [|c s IH]; [done|]. simpl.
  destruct (Js.is_ws c) eqn:E; [done|]. simpl. done.
Qed.

Lemma trimStart_fixed s : headOk s → Js.trimStart s = s.
Proof. destruct s as [|c s]; [done|]. simpl. by intros ->. Qed.

Lemma trimEnd_headOk s : headOk s → headOk (Js.trimEnd s).
Proof.
  destruct s as [|c s]; [done|]. simpl. intros H.
  destruct (Js.trimEnd s); [by rewrite H|done].
Qed.

Lemma trimEnd_trimEnd s : Js.trimEnd (Js.trimEnd s) = Js.trimEnd s.
Proof.
  induction s as [|c s IH]; [done|]. simpl.
  destruct (Js.trimEnd s) as [|d r] eqn:E.
  - destruct (Js.is_ws c) eqn:Ec; [done|]. simpl. by rewrite Ec.
  - simpl. simpl in IH. destruct (Js.trimEnd r) as [|d' r'] eqn:Er.
    + destruct (Js.is_ws d) eqn:Ed; [done|]. by rewrite IH.
    + by rewrite IH.
Qed.

(** Trimming a trimmed text changes nothing. *)
Lemma trim_trim s : Js.trim (Js.trim s) = Js.trim s.
Proof.
  unfold Js.trim.
  rewrite (trimStart_fixed (Js.trimEnd (Js.trimStart s)))
    by apply trimEnd_headOk, trimStart_headOk.
  apply trimEnd_trimEnd.
Qed.

Lemma orElse_nonempty a b : b ≠ "" → Js.orElse a b ≠ "".
Proof. intros H. by destruct a as [[|c r]|]. Qed.

Lemma orElse_trim a b : Js.trim b = b → Js.trim (Js.orElse (Js.trim <$> a) b)
                                         = Js.orElse (Js.trim <$> a) b.
Proof.
  intros H. destruct a as [s|]; simpl; [|done].
  destruct (Js.trim s) eqn:E; [done|]. rewrite <- E. apply trim_trim.
Qed.

Lemma detectResolution_trimmed display w :
  ∃ s, Recorder.detectResolution display w = Ok s w ∧ s ≠ "" ∧ Js.trim s = s.
Proof.
  destruct (decide (awkStatus w = 0)) as [H0|H0].
  - rewrite (detectResolution_ran display w H0). eexists. split; [done|].
    split; [by apply orElse_nonempty|].
    apply (orElse_trim (Some _)). done.
  - rewrite (detectResolution_failed display w H0). eauto.
Qed.

(** X10.  The probe never yields an empty parameter.  [detectDisplay] is
    the DISPLAY of the environment, and :0 when that is unset or empty;
    [detectResolution] returns, in any state and for any display, a text
    that is not empty and has no white space at its ends. *)
Theorem probe_never_empty (host : Host) (display : string) (w : World) :
  Recorder.detectDisplay host ≠ "" ∧
  (envDISPLAY host = None ∨ envDISPLAY host = Some "" →
   Recorder.detectDisplay host = ":0") ∧
  ∃ s, Recorder.detectResolution display w = Ok s w ∧
       s ≠ "" ∧ Js.trim s = s.
Proof.
  split; [by apply orElse_nonempty|]. split.
  - unfold Recorder.detectDisplay. by intros [-> | ->].
  - apply detectResolution_trimmed.
Qed.

Lemma probe_never_empty_witness :
  Recorder.detectDisplay (mkHost "/tmp" "/home/u" (Some "")) = ":0".
Proof.
  refine (proj1 (proj2 (probe_never_empty (mkHost "/tmp" "/home/u" (Some ""))
                          ":0" Example.idle)) _).
  by right.
Defined.

Lemma start_args host prefs w w1 :
  Recorder.startRecording host prefs w = Ok tt w1 →
  ∃ res out,
    (∃ wr, Recorder.detectResolution (Recorder.detectDisplay host) wr = Ok res wr) ∧
    lastOutput w1 = Some out ∧ out ≠ "" ∧
    spawned w1
    = ("ffmpeg",
       [ "-y"; "-f"; "x11grab";
         "-framerate"; Js.orElse (Js.trim <$> Recorder.fps prefs) "60";
         "-s"; res;
         "-i"; Recorder.detectDisplay host +:+ ".0+0,0";
         "-f"; "pulse";
         "-i"; Js.orElse (Js.trim <$> Recorder.audioDevice prefs) "default";
         "-vcodec"; "libx264"; "-preset"; "ultrafast";
         "-pix_fmt"; "yuv420p"; "-acodec"; "aac"; "-b:a"; "128k";
         out ]) :: spawned w.
Proof.
  unfold Recorder.startRecording. intros H.
  apply bind_inv_ok in H as (dir & wa & Hdir & H). cbv beta zeta in H.
  apply bind_inv_ok in H as (t & w2 & Ht & H). cbv beta zeta in H.
  unfold Date.now, gets in Ht. injection Ht as <- <-.
  apply bind_inv_ok in H as (res & w3 & Hres & H). cbv beta zeta in H.
  pose proof (detectResolution_inv _ _ _ _ Hres) as ->.
  apply bind_inv_ok in H as ([] & w4 & Hlog & H).
  apply writeFileSync_ok in Hlog as [-> Hlog].
  apply bind_inv_ok in H as (fd & w5 & Hfd & H).
  rewrite (openSync_append_existing _ _ _ Hlog) in Hfd. injection Hfd as <- <-.
  apply bind_inv_ok in H as (child & ws & Hsp & H).
  apply bind_inv_ok in H as ([] & we & Hon & H).
  apply bind_inv_ok in H as ([] & w7 & Hun & H).
  unfold unref, ret in Hun. injection Hun as <-.
  apply writeFileSync_ok in H as [-> _].
  apply launches_after_getOutputDir in Hdir as (_ & _ & _ & _ & Hsa).
  apply spawn_inv in Hsp as (Hss & _).
  apply onError_inv in Hon as (_ & _ & Hse & _ & _).
  eexists res, _. split; [eauto|]. split; [|split].
  - unfold lastOutput. simpl. rewrite Hse, Hss. reflexivity.
  - apply joinAll_nonempty.
  - simpl. rewrite Hse, Hss. simpl. by rewrite Hsa.
Qed.

(** X11.  The recorder is started with a complete command line: 24
    arguments, none of them empty.  A frame rate or an audio device that
    is missing, empty or white space only is replaced by 60 and by
    default, and the input is the display followed by .0+0,0. *)
Theorem start_command_complete (host : Host) (prefs : Recorder.Preferences)
    (w w1 : World) :
  Recorder.startRecording host prefs w = Ok tt w1 →
  ∃ args,
    spawned w1 = ("ffmpeg", args) :: spawned w ∧
    length args = 24%nat ∧
    Forall (fun a => a ≠ "") args ∧
    args !! 4%nat = Some (Js.orElse (Js.trim <$> Recorder.fps prefs) "60") ∧
    args !! 8%nat = Some (Recorder.detectDisplay host +:+ ".0+0,0") ∧
    args !! 12%nat
    = Some (Js.orElse (Js.trim <$> Recorder.audioDevice prefs) "default") ∧
    (unset (Recorder.fps prefs) → args !! 4%nat = Some "60") ∧
    (unset (Recorder.audioDevice prefs) → args !! 12%nat = Some "default").
Proof.
  intros H.
  destruct (start_args host prefs w w1 H)
    as (res & out & [wr Hres] & _ & Hout & Hsp).
  eexists. split; [exact Hsp|]. split; [done|].
  assert (res ≠ "") as Hr.
  { destruct (detectResolution_trimmed (Recorder.detectDisplay host) wr) as (s & Hs & Hne & _).
    rewrite Hs in Hres. by injection Hres as <-. }
  assert (Recorder.detectDisplay host +:+ ".0+0,0" ≠ "") as Hd.
  { pose proof (orElse_nonempty (envDISPLAY host) ":0") as Hn.
    unfold Recorder.detectDisplay.
    destruct (Js.orElse (envDISPLAY host) ":0"); [by destruct Hn|done]. }
  split.
  { repeat (constructor; [first [done | by apply orElse_nonempty]|]).
    constructor. }
  split; [done|]. split; [done|]. split; [done|]. split.
  - unfold unset. simpl. destruct (Recorder.fps prefs) as [s|]; [|done].
    simpl. by intros ->.
  - unfold unset. simpl. destruct (Recorder.audioDevice prefs) as [s|]; [|done].
    simpl. by intros ->.
Qed.

Lemma start_command_complete_witness :
  ∃ args,
    spawned Example.started = ("ffmpeg", args) :: spawned Example.idle ∧
    length args = 24%nat ∧
    Forall (fun a => a ≠ "") args ∧
    args !! 4%nat
    = Some (Js.orElse (Js.trim <$> Recorder.fps Example.prefs) "60") ∧
    args !! 8%nat = Some (Recorder.detectDisplay Example.host +:+ ".0+0,0") ∧
    args !! 12%nat
    = Some (Js.orElse (Js.trim <$> Recorder.audioDevice Example.prefs) "default") ∧
    (unset (Recorder.fps Example.prefs) → args !! 4%nat = Some "60") ∧
    (unset (Recorder.audioDevice Example.prefs) →
     args !! 12%nat = Some "default").
Proof.
  exact (start_command_complete Example.host Example.prefs Example.idle
           Example.started idle_start).
Defined.

(** ** The timestamp of the output file *)

Lemma replaced_colon s : hasChar ":" (Js.replaceColonDot s) = false.
Proof.
  induction s as [|c s IH]; [done|].
  unfold Js.replaceColonDot in *. simpl. rewrite IH.
  destruct (Ascii.eqb c ":") eqn:E1; [done|].
  destruct (Ascii.eqb c "."); simpl; [done|]. by rewrite E1.
Qed.

Lemma replaced_dot s : hasChar "." (Js.replaceColonDot s) = false.
Proof.
  induction s as [|c s IH]; [done|].
  unfold Js.replaceColonDot in *. simpl. rewrite IH.
  destruct (Ascii.eqb c ":") eqn:E1; [done|].
  destruct (Ascii.eqb c ".") eqn:E2; simpl; [done|]. by rewrite E2.
Qed.

Lemma second_fields t :
  t / Date.msPerDay = (1000 * (t / 1000)) / Date.msPerDay ∧
  (t mod Date.msPerDay) / 3600000
  = ((1000 * (t / 1000)) mod Date.msPerDay) / 3600000 ∧
  (t mod Date.msPerDay) / 60000 mod 60
  = ((1000 * (t / 1000)) mod Date.msPerDay) / 60000 mod 60 ∧
  (t mod Date.msPerDay) / 1000 mod 60
  = ((1000 * (t / 1000)) mod Date.msPerDay) / 1000 mod 60.
Proof. unfold Date.msPerDay. repeat split; Z.div_mod_to_equations; lia. Qed.

(** The stamp of a clock is the stamp of its second. *)
Lemma stamp_second t :
  stamp (Date.utc t) = stamp (Date.utc (1000 * (t / 1000))).
Proof.
  destruct (second_fields t) as (Hd & Hh & Hm & Hs).
  unfold Date.utc. rewrite <- Hd.
  destruct (Date.civil (t / Date.msPerDay)) as [[y m] d].
  unfold stamp. simpl. by rewrite Hh, Hm, Hs.
Qed.

Lemma year_second t :
  Date.year (Date.utc t) = Date.year (Date.utc (1000 * (t / 1000))).
Proof.
  destruct (second_fields t) as (Hd & _).
  unfold Date.utc. rewrite <- Hd.
  by destruct (Date.civil (t / Date.msPerDay)) as [[y m] d].
Qed.

(** X12.  The timestamp in the name of an output file holds no colon, no
    period and no path separator, whatever the clock.  For a clock in a
    year of four digits it has 19 characters, and two such clocks have
    the same timestamp exactly when they are in the same second. *)
Theorem timestamp_by_second :
  (∀ t, hasChar ":" (Recorder.timestamp t) = false ∧
        hasChar "." (Recorder.timestamp t) = false ∧
        hasChar "/" (Recorder.timestamp t) = false) ∧
  (∀ t, fourDigitYear t → String.length (Recorder.timestamp t) = 19%nat) ∧
  (∀ t1 t2, fourDigitYear t1 → fourDigitYear t2 →
     (Recorder.timestamp t1 = Recorder.timestamp t2 ↔ t1 / 1000 = t2 / 1000)).
Proof.
  split; [|split].
  - intros t. unfold Recorder.timestamp, Js.slicePrefix.
    split; [apply hasChar_prefix, replaced_colon|].
    split; [apply hasChar_prefix, replaced_dot|].
    apply hasChar_prefix. by rewrite hasChar_replace, toISOString_plain.
  - intros t H. rewrite (timestamp_stamp t H). apply length_stamp.
  - intros t1 t2 H1 H2. split; [by apply timestamp_same_second|].
    intros Hs. rewrite (timestamp_stamp _ H1), (timestamp_stamp _ H2).
    by rewrite (stamp_second t1), (stamp_second t2), Hs.
Qed.

Lemma timestamp_by_second_witness :
  String.length (Recorder.timestamp (clock Example.idle)) = 19%nat ∧
  (Recorder.timestamp (clock Example.idle)
   = Recorder.timestamp (clock Example.idle + 500)
   ↔ clock Example.idle / 1000 = (clock Example.idle + 500) / 1000).
Proof.
  split.
  - exact (proj1 (proj2 timestamp_by_second) (clock Example.idle) idle_year).
  - refine (proj2 (proj2 timestamp_by_second) (clock Example.idle)
              (clock Example.idle + 500) idle_year _).
    unfold fourDigitYear. vm_compute. by split.
Defined.

(** ** The output directory, set or not *)

Lemma mkdirs_adds_dirs ks f f' :
  mkdirs ks f = Some f' →
  (∀ k n, f !! k = Some n → f' !! k = Some n) ∧
  (∀ k, f !! k = None → f' !! k = None ∨ (f' !! k = Some Dir ∧ k ∈ ks)).
Proof.
  revert f. induction ks as [|k r IH]; intros f H; simpl in H.
  - injection H as <-. split; [done|]. by left.
  - destruct (f !! k) as [[a c|]|] eqn:E; [done| |].
    + destruct (IH _ H) as [Hkeep Hnew]. split; [done|].
      intros k' Hk'. destruct (Hnew k' Hk') as [?|[? ?]]; [by left|].
      right. split; [done|]. by right.
    + destruct (IH _ H) as [Hkeep Hnew]. split.
      * intros k' n Hk'. apply Hkeep. rewrite lookup_insert_ne; [done|].
        intros ->. by rewrite E in Hk'.
      * intros k' Hk'. destruct (decide (k = k')) as [->|Hne].
        -- right. split; [|by left].
           apply Hkeep. by rewrite lookup_insert_eq.
        -- destruct (Hnew k') as [?|[? ?]]; [by rewrite lookup_insert_ne|by left|].
           right. split; [done|]. by right.
Qed.



(** ** The one-shot command *)

Lemma toggle_stop_run host w text :
  stat w (Toggle.PID_FILE host) = Some (File true text) →
  Toggle.stopRecording host w
  = Ok tt
      (without (Toggle.PID_FILE host)
         match Shell.signal w (Js.trim text) with
         | Some n => if decide (n ∈ deaf w) then w
                     else setProcs (procs w ∖ {[n]}) w
         | None => w
         end).
Proof.
  intros H. unfold Toggle.stopRecording.
  assert (readFileSync (Toggle.PID_FILE host) w = Ok text w) as Hr
    by (unfold readFileSync; by rewrite H).
  rewrite (bind_ok _ _ _ _ _ Hr).
  set (w1 := match Shell.signal w (Js.trim text) with
             | Some n => if decide (n ∈ deaf w) then w
                         else setProcs (procs w ∖ {[n]}) w
             | None => w
             end).
  assert (tryCatch (execSync (KillInt (Js.trim text)) ;; ret tt)
            (fun _ => ret tt) w = Ok tt w1) as Ht.
  { unfold tryCatch, bind, ret, w1. simpl.
    destruct (Shell.signal w (Js.trim text)); done. }
  rewrite (bind_ok _ _ _ _ _ Ht).
  assert (stat w1 (Toggle.PID_FILE host) = Some (File true text)) as H1.
  { rewrite <- H. apply stat_frame; unfold w1;
      destruct (Shell.signal _ _); try done; by destruct (decide _). }
  rewrite (bind_ok _ _ _ _ _ (existsSync_found _ _ _ H1)).
  by rewrite (unlinkSync_file _ _ _ _ H1).
Qed.

Lemma toggle_main_start host prefs w w0 :
  Toggle.isRecording host w = Ok false w0 →
  Toggle.main host prefs w
  = match Toggle.startRecording host prefs w0 with
    | Ok _ w1 => Ok "🔴 Recording started" w1
    | Throw e w1 => Ok ("❌ Failed to start: " +:+ exnText e) w1
    end.
Proof.
  intros H. unfold Toggle.main. rewrite (bind_ok _ _ _ _ _ H).
  unfold tryCatch, bind, ret. by destruct (Toggle.startRecording _ _ _).
Qed.



Lemma toggle_start_run host prefs w w1 :
  Toggle.startRecording host prefs w = Ok tt w1 →
  ∃ wl args child ws,
    spawn "ffmpeg" args wl = Ok child ws ∧
    launches wl = launches w ∧ procs wl = procs w ∧ deaf wl = deaf w ∧
    pending wl = pending w ∧ spawned wl = spawned w ∧ clock wl = clock w ∧
    w1 = putFile (Toggle.PID_FILE host)
           (File true (Js.stringOfPid (childPid child))) ws ∧
    stat w1 (Toggle.PID_FILE host)
    = Some (File true (Js.stringOfPid (childPid child))).
Proof.
  unfold Toggle.startRecording. intros H.
  apply bind_inv_ok in H as (t & w2 & Ht & H). cbv beta zeta in H.
  unfold Date.now, gets in Ht. injection Ht as <- <-.
  apply bind_inv_ok in H as (out & w3 & Hout & H).
  apply bind_inv_ok in H as (err & w4 & Herr & H).
  apply bind_inv_ok in H as (child & ws & Hsp & H).
  apply bind_inv_ok in H as ([] & w7 & Hun & H).
  unfold unref, ret in Hun. injection Hun as <-.
  apply writeFileSync_ok in H as [Hw Hst].
  assert (launches w3 = launches w ∧ procs w3 = procs w ∧ deaf w3 = deaf w ∧
          pending w3 = pending w ∧ spawned w3 = spawned w ∧ clock w3 = clock w)
    as (? & ? & ? & ? & ? & ?).
  { unfold openSync in Hout. repeat case_match; simplify_eq; done. }
  assert (launches w4 = launches w3 ∧ procs w4 = procs w3 ∧ deaf w4 = deaf w3 ∧
          pending w4 = pending w3 ∧ spawned w4 = spawned w3 ∧ clock w4 = clock w3)
    as (? & ? & ? & ? & ? & ?).
  { unfold openSync in Herr. repeat case_match; simplify_eq; done. }
  eexists w4, _, child, ws. split; [exact Hsp|].
  repeat (split; [congruence|]). done.
Qed.





(** ** The handlers of the view *)

Lemma start_clock host prefs w w1 n rest :
  launches w = Launches n :: rest →
  pending w = [] →
  Recorder.startRecording host prefs w = Ok tt w1 →
  clock w1 = clock w ∧ pending w1 = [].
Proof.
  intros Hl Hp Hstart.
  destruct (start_trace host prefs w w1 Hstart)
    as (dir & wa & args & header & child & ws & we
        & Hdir & _ & Hsp & Hon & Hw & _).
  apply launches_after_getOutputDir in Hdir as (Hla & Hpa & _ & Hca & _).
  apply onError_inv in Hon as (_ & _ & _ & Hce & Hpe).
  unfold spawn in Hsp. simpl in Hsp. rewrite Hla, Hl in Hsp.
  injection Hsp as <- <-. simpl in *.
  rewrite Hpa, Hp in Hpe. subst w1. simpl.
  split; [by rewrite Hce|done].
Qed.



Lemma stat_absent_entry w p :
  p ≠ "" → stat w p = None → fs w !! Path.resolve (cwd w) p = None.
Proof.
  unfold stat. intros Hp. destruct p; [done|].
  by destruct (Path.resolve (cwd w) (String a p)).
Qed.



(** ** The timer of the view *)

Lemma digitsValue_zeros k s :
  Shell.digitsValue (Js.repeatChar k "0" +:+ s) 0 = Shell.digitsValue s 0.
Proof. induction k as [|k IH]; [done|]. simpl. exact IH. Qed.

Lemma digitsValue_decimal n : Shell.digitsValue (Js.decimal n) 0 = Some n.
Proof.
  pose proof (pidOfText_decimal n) as H. unfold Shell.pidOfText in H.
  destruct (Js.decimal n) eqn:E; [|done]. discriminate.
Qed.

Lemma twoChars_all k : (k < 100)%nat → twoChars k = true.
Proof.
  intros H.
  assert (forallb twoChars (seq 0 100) = true) as Hall by (vm_compute; reflexivity).
  rewrite forallb_forall in Hall. apply Hall, in_seq. lia.
Qed.

Lemma length_padded n :
  0 ≤ n < 100 →
  String.length (Js.padStart 2 "0" (Js.stringOfInt n)) = 2%nat.
Proof.
  intros H. unfold Js.stringOfInt.
  destruct (Z.ltb_spec n 0) as [?|_]; [lia|].
  pose proof (twoChars_all (Z.to_nat n)) as Ht. unfold twoChars in Ht.
  rewrite Z_nat_N in Ht. apply Nat.eqb_eq, Ht. lia.
Qed.

Lemma value_padded n :
  0 ≤ n →
  Shell.digitsValue (Js.padStart 2 "0" (Js.stringOfInt n)) 0 = Some (Z.to_N n).
Proof.
  intros H. unfold Js.stringOfInt, Js.padStart.
  destruct (Z.ltb_spec n 0) as [?|_]; [lia|].
  by rewrite digitsValue_zeros, digitsValue_decimal.
Qed.

Lemma append_inj_length a b c d :
  String.length c = String.length d → a +:+ c = b +:+ d → a = b ∧ c = d.
Proof.
  revert b. induction a as [|x a IH]; intros [|y b] Hl H.
  - done.
  - rewrite append_nil_l in H. subst c.
    rewrite length_append in Hl. simpl in Hl. lia.
  - rewrite append_nil_l in H. subst d.
    rewrite length_append in Hl. simpl in Hl. lia.
  - rewrite !append_cons in H. injection H as -> H.
    destruct (IH b Hl H) as [-> ->]. done.
Qed.

(** X19.  The text of the timer, for a start time not after the clock:
    it is "00:00" in the first second, it has five characters under a
    hundred minutes, and it shows the whole seconds elapsed and nothing
    else, so two texts are equal exactly when as many whole seconds have
    passed. *)
Theorem timer_shows_whole_seconds :
  (∀ a n, 0 ≤ n - a < 1000 → Recorder.timerTick a n = "00:00") ∧
  (∀ a n, 0 ≤ n - a < 6000000 →
          String.length (Recorder.timerTick a n) = 5%nat) ∧
  (∀ a1 n1 a2 n2, a1 ≤ n1 → a2 ≤ n2 →
     (Recorder.timerTick a1 n1 = Recorder.timerTick a2 n2
      ↔ (n1 - a1) / 1000 = (n2 - a2) / 1000)).
Proof.
  split; [|split].
  - intros a n H. unfold Recorder.timerTick.
    replace ((n - a) / 1000) with 0 by (symmetry; apply Z.div_small; lia).
    reflexivity.
  - intros a n H. unfold Recorder.timerTick. cbv zeta.
    assert (0 ≤ (n - a) / 1000 < 6000) as Hs
      by (split; [apply Z.div_pos; lia|apply Z.div_lt_upper_bound; lia]).
    rewrite !length_append, length_padded, length_padded; [done| |].
    + rewrite Z.rem_mod_nonneg by lia.
      pose proof (Z.mod_pos_bound ((n - a) / 1000) 60). lia.
    + split; [apply Z.div_pos; lia|apply Z.div_lt_upper_bound; lia].
  - intros a1 n1 a2 n2 H1 H2. split; [|intros H; unfold Recorder.timerTick; by rewrite H].
    unfold Recorder.timerTick. cbv zeta.
    assert (0 ≤ (n1 - a1) / 1000) as Hs1 by (apply Z.div_pos; lia).
    assert (0 ≤ (n2 - a2) / 1000) as Hs2 by (apply Z.div_pos; lia).
    set (s1 := (n1 - a1) / 1000) in *. set (s2 := (n2 - a2) / 1000) in *.
    rewrite !Z.rem_mod_nonneg by lia.
    pose proof (Z.mod_pos_bound s1 60) as Hb1.
    pose proof (Z.mod_pos_bound s2 60) as Hb2.
    intros H.
    apply append_inj_length in H as [Hm Hsec].
    2:{ rewrite !length_append, !length_padded by lia. done. }
    apply append_inj_length in Hsec as [_ Hsec];
      [|by rewrite !length_padded by lia].
    apply (f_equal (fun s => Shell.digitsValue s 0)) in Hm, Hsec.
    rewrite !value_padded in Hm, Hsec
      by (try apply Z.div_pos; lia).
    injection Hm as Hm. injection Hsec as Hsec.
    apply Z2N.inj in Hm; [|apply Z.div_pos; lia|apply Z.div_pos; lia].
    apply Z2N.inj in Hsec; [|lia|lia].
    rewrite (Z.div_mod s1 60), (Z.div_mod s2 60) by lia. lia.
Qed.

Lemma timer_shows_whole_seconds_witness :
  Recorder.timerTick 1000 1999 = "00:00" ∧
  String.length (Recorder.timerTick 0 5999999) = 5%nat ∧
  (Recorder.timerTick 0 61000 = Recorder.timerTick 500 61999
   ↔ (61000 - 0) / 1000 = (61999 - 500) / 1000).
Proof.
  split; [|split].
  - apply (proj1 timer_shows_whole_seconds). lia.
  - apply (proj1 (proj2 timer_shows_whole_seconds)). lia.
  - apply (proj2 (proj2 timer_shows_whole_seconds)); lia.
Defined.

(** ** A start that throws *)

Lemma bind_inv_throw {A B} (m : M A) (k : A → M B) w e w' :
  bind m k w = Throw e w' →
  m w = Throw e w' ∨ ∃ a w1, m w = Ok a w1 ∧ k a w1 = Throw e w'.
Proof.
  unfold bind. destruct (m w) as [a w1|e1 w1] eqn:E; intros H.
  - right. exists a, w1. split; [reflexivity|exact H].
  - left. by injection H as -> ->.
Qed.

Lemma getOutputDir_throw host prefs w e w' :
  Recorder.getOutputDir host prefs w = Throw e w' → w' = w.
Proof.
  unfold Recorder.getOutputDir, bind, existsSync, gets, ret.
  destruct (bool_decide _); simpl; [done|].
  unfold mkdirSyncRecursive. repeat case_match; try done; congruence.
Qed.

Lemma writeFileSync_throw p data w e w' :
  writeFileSync p data w = Throw e w' →
  w' = w ∧
  (p = "" ∨
   (e = FsError EISDIR p ∧ stat w p = Some Dir) ∨
   (e = FsError EACCES p ∧ ∃ c, stat w p = Some (File false c))).
Proof.
  unfold writeFileSync. destruct p as [|a p]; [intros [= <- <-]; by auto|].
  destruct (stat w (String a p)) as [[[] c|]|] eqn:E; try done.
  - intros [= <- <-]. split; [done|]. right. right. eauto.
  - intros [= <- <-]. split; [done|]. right. left. done.
Qed.



(** ** What the one-shot start leaves *)

Lemma toggle_log_path host cwd :
  Path.resolve cwd (Toggle.LOG_FILE host)
  = Path.resolve cwd (homedir host) ++ ["Desktop"; "ffmpeg-recording.log"].
Proof.
  unfold Toggle.LOG_FILE, Path.joinAll.
  rewrite filter_cons. case_decide as Hd.
  - rewrite !filter_cons, !decide_True, filter_nil by done.
    rewrite resolve_normalize by (destruct (homedir host); done).
    rewrite !resolve_unfold, !join_cons.
    change ("/" +:+ ?x) with (String Path.sep x).
    rewrite isAbsolute_append by done.
    rewrite split_append_sep, fold_left_app. simpl.
    by rewrite <- app_assoc.
  - rewrite Hd.
    rewrite !filter_cons, !decide_True, filter_nil by done.
    rewrite resolve_normalize by done.
    rewrite !resolve_unfold. simpl.
    rewrite step_skip by auto. by rewrite <- app_assoc.
Qed.

Lemma toggle_marker_not_log host w :
  Path.resolve (cwd w) (Toggle.PID_FILE host)
  ≠ Path.resolve (cwd w) (Toggle.LOG_FILE host).
Proof.
  unfold Toggle.PID_FILE.
  rewrite (resolve_join _ _ _ marker_name), toggle_log_path.
  change ["Desktop"; "ffmpeg-recording.log"]
    with (["Desktop"] ++ ["ffmpeg-recording.log"]).
  rewrite app_assoc. intros H. by apply app_inj_tail in H as [_ ?].
Qed.


